(** * wapm-shell command runner: pipeline builder and orchestrator

    A shallow embedding of
    [examples/wapm-shell/services/command-runner/command-runner.ts]:
    the recursive walk [getCommandOptionsFromAST] that turns a parsed
    command chain into one [CommandOptions] per stage, and the class
    [CommandRunner] whose methods spawn the stages, route their bytes and
    signal completion.

    Conventions.
    - A JavaScript string is represented by the Rocq [string] holding its
      UTF-8 encoding; a [Uint8Array] is a [list byte].
    - A promise is represented by the way it settles ([settled]); a thrown
      value by [thrown].
    - Calls on the collaborators of the class (the terminal, the completion
      callback, the processes and their workers) are recorded, in order, in
      a list of [effect]s. *)

From Stdlib Require Import List String Ascii Strings.Byte Bool Arith ZArith NArith Lia.
Import ListNotations.

Local Open Scope string_scope.
Local Open Scope list_scope.

(** ** JavaScript values used by the runner *)

Module Js.

(** The two control characters of the diagnostics and of the newline
    translation. *)
Definition CR : ascii := "013"%char.
Definition LF : ascii := "010"%char.
Definition CRLF : string := String CR (String LF EmptyString).

(** Values that the code throws, or that a collaborator throws at it. *)
Inductive thrown : Type :=
| Error (message : string)            (* new Error(message) *)
| TypeErrorUndefined (prop : string)  (* reading [prop] of undefined *)
| RangeError (message : string)
| Foreign (description : string).     (* thrown by a collaborator *)

(** [c.toString()] on a caught value. *)
Definition toString (c : thrown) : string :=
  match c with
  | Error m => ("Error: " ++ m)%string
  | TypeErrorUndefined p =>
      ("TypeError: Cannot read property '" ++ p ++ "' of undefined")%string
  | RangeError m => ("RangeError: " ++ m)%string
  | Foreign d => d
  end.

(** How an evaluation completes: normally with a value, or abruptly with a
    thrown one.  Awaiting a promise yields the completion it settled with
    (fulfilled is [normal], rejected is [throw]). *)
Inductive completion (A : Type) : Type :=
| normal (a : A)
| throw (reason : thrown).
Arguments normal {A} a.
Arguments throw {A} reason.

(** [p.then(f)] for a callback returning a promise. *)
Definition andThen {A B : Type} (p : completion A) (f : A -> completion B)
  : completion B :=
  match p with
  | normal a => f a
  | throw r => throw r
  end.

(** [s.replace(/\n/g, "\r\n")]. *)
Fixpoint replace_LF_CRLF (s : string) : string :=
  match s with
  | EmptyString => EmptyString
  | String c rest =>
      if Ascii.eqb c LF
      then String CR (String LF (replace_LF_CRLF rest))
      else String c (replace_LF_CRLF rest)
  end.

(** [new Uint8Array(n)]: [n] zero bytes. *)
Definition Uint8Array_new (n : nat) : list byte := repeat x00 n.

(** [target.set(source, offset)]: the bytes of [source] overwrite those of
    [target] from [offset] on; a [RangeError] when they do not fit. *)
Definition Uint8Array_set (target source : list byte) (offset : nat)
  : completion (list byte) :=
  if (offset + List.length source <=? List.length target)%nat
  then normal (firstn offset target ++ source
               ++ skipn (offset + List.length source) target)
  else throw (RangeError "offset is out of bounds").

End Js.
Import Js.

(** ** [new TextDecoder("utf-8").decode(bytes)]

    The decoder of the Encoding standard, not streaming and not fatal: a
    well-formed sequence decodes to its character, every ill-formed or
    truncated one to U+FFFD, and a leading byte order mark is dropped.  As
    strings are held in UTF-8, a decoded character is given by the bytes of
    its encoding. *)

Module TextDecoder.

Record state : Type := mkState {
  bytes_needed : nat;         (* continuation bytes still expected *)
  seen : list byte;           (* bytes of the sequence being read *)
  lower_boundary : N;
  upper_boundary : N
}.

Definition initial : state := mkState 0 [] 128 191.

Definition replacement_character : list byte := [xef; xbf; xbd].

Definition between (lo hi n : N) : bool := (lo <=? n)%N && (n <=? hi)%N.

(** A byte read while no sequence is open. *)
Definition lead (b : byte) : list byte * state :=
  let n := Byte.to_N b in
  if between 0 127 n then ([b], initial)
  else if between 194 223 n then ([], mkState 1 [b] 128 191)
  else if between 224 239 n then
    ([], mkState 2 [b] (if (n =? 224)%N then 160 else 128)%N
                       (if (n =? 237)%N then 159 else 191)%N)
  else if between 240 244 n then
    ([], mkState 3 [b] (if (n =? 240)%N then 144 else 128)%N
                       (if (n =? 244)%N then 143 else 191)%N)
  else (replacement_character, initial).

(** One byte through the decoder: the text emitted and the next state.  A
    byte that cannot continue the open sequence ends it in error and is
    read again as a lead byte. *)
Definition handler (st : state) (b : byte) : list byte * state :=
  match bytes_needed st with
  | O => lead b
  | S remaining =>
      if between (lower_boundary st) (upper_boundary st) (Byte.to_N b) then
        match remaining with
        | O => (seen st ++ [b], initial)
        | S _ => ([], mkState remaining (seen st ++ [b]) 128 191)
        end
      else
        let '(out, st') := lead b in (replacement_character ++ out, st')
  end.

Fixpoint run (st : state) (input : list byte) : list byte :=
  match input with
  | [] => match bytes_needed st with
          | O => []
          | S _ => replacement_character
          end
  | b :: rest => let '(out, st') := handler st b in out ++ run st' rest
  end.

Definition strip_BOM (text : list byte) : list byte :=
  match text with
  | xef :: xbb :: xbf :: rest => rest
  | _ => text
  end.

Definition decode (data : list byte) : string :=
  string_of_list_byte (strip_BOM (run initial data)).

End TextDecoder.

(** ** The parsed command line

    The nodes that [shell-parse] produces, restricted to the fields that the
    runner reads.  A word (command name, argument, environment value) is an
    object with a [value]; a redirect has a [type] and, when it is a pipe,
    the [command] node it feeds. *)

Record token : Type := Token { value : string }.

Inductive ast : Type :=
| Ast (type : string)
      (command : token)
      (args : list token)
      (env : list (string * token))
      (redirects : option (list redirect))
with redirect : Type :=
| Redirect (type : string) (command : option ast).

Definition ast_type (a : ast) : string :=
  match a with Ast t _ _ _ _ => t end.
Definition ast_command (a : ast) : token :=
  match a with Ast _ c _ _ _ => c end.
Definition ast_args (a : ast) : list token :=
  match a with Ast _ _ l _ _ => l end.
Definition ast_env (a : ast) : list (string * token) :=
  match a with Ast _ _ _ e _ => e end.
Definition ast_redirects (a : ast) : option (list redirect) :=
  match a with Ast _ _ _ _ r => r end.

Definition redirect_type (r : redirect) : string :=
  match r with Redirect t _ => t end.
Definition redirect_command (r : redirect) : option ast :=
  match r with Redirect _ c => c end.

(** ** The collaborators of the runner

    What the file imports and the host provides: the shell parser, the
    command cache that resolves a command name to a compiled module, and
    the two capabilities of [window] that [spawnProcess] tests. *)

Class Host : Type := {
  WasmModule : Type;
  parse : string -> completion (list ast);
  getWasmModuleForCommandName : string -> completion WasmModule;
  window_SharedArrayBuffer : bool;
  window_Atomics : bool
}.

(** ** The pipeline builder *)

Section Builder.

Context {host : Host}.

Record CommandOptions : Type := mkCommandOptions {
  args : list string;
  env : list (string * string);
  module : WasmModule
}.

(** [getCommandOptionsFromAST]: the options of the redirect target are
    computed first ([redirectTask]), then the module of this node is
    resolved ([getWasmModuleTask]), and the node's own options are put in
    front ([unshift]). *)
Fixpoint getCommandOptionsFromAST (a : ast)
  : completion (list CommandOptions) :=
  match a with
  | Ast _ cmd cmdargs cmdenv reds =>
      let command := value cmd in
      let commandArgs := map value cmdargs in
      let args := command :: commandArgs in
      let env := map (fun kv => (fst kv, value (snd kv))) cmdenv in
      let redirectTask : completion (list CommandOptions) :=
        match reds with
        | Some (Redirect rtype rcommand :: _) =>
            if String.eqb rtype "pipe" then
              match rcommand with
              | Some target =>
                  andThen (getCommandOptionsFromAST target)
                          (fun redirectedCommandOptions =>
                             normal ([] ++ redirectedCommandOptions))
              | None => throw (TypeErrorUndefined "command")
              end
            else normal []
        | Some [] => normal []
        | None => normal []
        end in
      andThen redirectTask (fun commandOptions =>
      andThen (getWasmModuleForCommandName command) (fun wasmModule =>
      normal (mkCommandOptions args env wasmModule :: commandOptions)))
  end.

End Builder.

(** ** The state of a [CommandRunner] and the calls it makes *)

Section Runner.

Context {host : Host}.

(** A worker made by [spawnProcessAsWorker] for the stage of that index. *)
Record Worker : Type := mkWorker { worker_index : nat }.

(** A [Process], made by [new Process(options, data, end, error, stdin)]:
    the options it runs, the stage index its three callbacks are bound to
    and its initial standard input. *)
Record Process : Type := mkProcess {
  process_options : option CommandOptions;
  process_index : nat;
  process_stdin : option (list byte)
}.

(** An entry of [spawnedProcessObjects]: [{ process, worker? }]. *)
Record SpawnedProcessObject : Type := mkSpawned {
  process : Process;
  worker : option Worker
}.

Record CommandRunner : Type := mkCommandRunner {
  commandOptionsForProcessesToRun : list CommandOptions;
  spawnedProcessObjects : list SpawnedProcessObject;
  initialStdinDataForNextProcess : list byte;
  isRunning : bool;
  commandString : string
}.

(** Calls on the collaborators, in the order they are made. *)
Inductive effect : Type :=
| xterm_write (text : string)
| commandEndCallback
| process_start (p : Process)
| process_receiveStdinChunk (p : Process) (data : list byte)
| worker_terminate (w : Worker).

(** A method body: from the state of the object to how it completes, the
    state it leaves and the calls it made. *)
Definition M (A : Type) : Type :=
  CommandRunner -> completion A * CommandRunner * list effect.

Definition ret {A : Type} (a : A) : M A :=
  fun this => (normal a, this, []).

Definition bind {A B : Type} (m : M A) (k : A -> M B) : M B :=
  fun this =>
    match m this with
    | (normal a, this', out) =>
        match k a this' with
        | (r, this'', out') => (r, this'', out ++ out')
        end
    | (throw c, this', out) => (throw c, this', out)
    end.

Definition raise {A : Type} (c : thrown) : M A :=
  fun this => (throw c, this, []).

(** [try { m } catch (c) { ... }]: the completion of [m] as a value. *)
Definition try {A : Type} (m : M A) : M (completion A) :=
  fun this =>
    match m this with
    | (r, this', out) => (normal r, this', out)
    end.

(** A completion brought into a method: a call that may throw, or an
    awaited promise. *)
Definition await {A : Type} (r : completion A) : M A :=
  fun this => (r, this, []).

Definition this_ : M CommandRunner :=
  fun this => (normal this, this, []).

Definition call (e : effect) : M unit :=
  fun this => (normal tt, this, [e]).

Definition set_commandOptionsForProcessesToRun (v : list CommandOptions)
  : M unit :=
  fun this =>
    (normal tt,
     mkCommandRunner v (spawnedProcessObjects this)
       (initialStdinDataForNextProcess this) (isRunning this)
       (commandString this),
     []).

Definition set_spawnedProcessObjects (v : list SpawnedProcessObject)
  : M unit :=
  fun this =>
    (normal tt,
     mkCommandRunner (commandOptionsForProcessesToRun this) v
       (initialStdinDataForNextProcess this) (isRunning this)
       (commandString this),
     []).

Definition set_initialStdinDataForNextProcess (v : list byte) : M unit :=
  fun this =>
    (normal tt,
     mkCommandRunner (commandOptionsForProcessesToRun this)
       (spawnedProcessObjects this) v (isRunning this) (commandString this),
     []).

Definition set_isRunning (v : bool) : M unit :=
  fun this =>
    (normal tt,
     mkCommandRunner (commandOptionsForProcessesToRun this)
       (spawnedProcessObjects this) (initialStdinDataForNextProcess this) v
       (commandString this),
     []).

End Runner.

Declare Scope runner_scope.
Delimit Scope runner_scope with runner.
Notation "x <- m ;; k" := (bind m (fun x => k))
  (at level 61, m at next level, right associativity) : runner_scope.
Notation "m ;; k" := (bind m (fun _ => k))
  (at level 61, right associativity) : runner_scope.
Local Open Scope runner_scope.

(** ** The methods of [CommandRunner] *)

Section Methods.

Context {host : Host}.

(** [new CommandRunner(xterm, commandString, commandEndCallback)]. *)
Definition constructor (commandString : string) : CommandRunner :=
  mkCommandRunner [] [] (Uint8Array_new 0) false commandString.

(** The stdin argument of [new Process]: the pending data when there is
    some, [undefined] otherwise. *)
Definition stdin_argument (this : CommandRunner) : option (list byte) :=
  if (0 <? List.length (initialStdinDataForNextProcess this))%nat
  then Some (initialStdinDataForNextProcess this)
  else None.

Definition spawnProcessAsWorker (commandOptionIndex : nat)
  : M SpawnedProcessObject :=
  this <- this_ ;;
  let processWorker := mkWorker commandOptionIndex in
  let process :=
    mkProcess
      (nth_error (commandOptionsForProcessesToRun this) commandOptionIndex)
      commandOptionIndex
      (stdin_argument this) in
  ret (mkSpawned process (Some processWorker)).

Definition spawnProcessAsService (commandOptionIndex : nat)
  : M SpawnedProcessObject :=
  this <- this_ ;;
  let process :=
    mkProcess
      (nth_error (commandOptionsForProcessesToRun this) commandOptionIndex)
      commandOptionIndex
      (stdin_argument this) in
  ret (mkSpawned process None).

Definition spawnProcess (commandOptionIndex : nat) : M unit :=
  spawnedProcessObject <-
    (if window_SharedArrayBuffer && window_Atomics && false
     then spawnProcessAsWorker commandOptionIndex
     else spawnProcessAsService commandOptionIndex) ;;
  (* Remove the initial stdin if we added it *)
  this <- this_ ;;
  (if (0 <? List.length (initialStdinDataForNextProcess this))%nat
   then set_initialStdinDataForNextProcess (Uint8Array_new 0)
   else ret tt) ;;
  (* Record this process as spawned *)
  this <- this_ ;;
  set_spawnedProcessObjects
    (spawnedProcessObjects this ++ [spawnedProcessObject]) ;;
  (* Start the process *)
  call (process_start (process spawnedProcessObject)).

Definition tryToSpawnProcess (commandOptionIndex : nat) : M unit :=
  this <- this_ ;;
  if (List.length (spawnedProcessObjects this) <? 2)%nat
     && (commandOptionIndex
         <? List.length (commandOptionsForProcessesToRun this))%nat
  then spawnProcess commandOptionIndex
  else ret tt.

Definition runCommand : M unit :=
  this <- this_ ;;
  (* First, let's parse the string into a bash AST *)
  commandAst <- await (parse (commandString this)) ;;
  attempt <- try (
    (if (1 <? List.length commandAst)%nat
     then raise (Error "Only one command permitted")
     else ret tt) ;;
    first <- match nth_error commandAst 0 with
             | Some node => ret node
             | None => raise (TypeErrorUndefined "type")
             end ;;
    (if negb (String.eqb (ast_type first) "command")
     then raise (Error "Only commands allowed")
     else ret tt) ;;
    (* Translate our AST into Command Options *)
    options <- await (getCommandOptionsFromAST first) ;;
    set_commandOptionsForProcessesToRun options) ;;
  match attempt with
  | throw c =>
      call (xterm_write
              ("wapm shell: parse error (" ++ toString c ++ ")" ++ CRLF)) ;;
      call commandEndCallback
  | normal _ =>
      set_isRunning true ;;
      (* Spawn the first process *)
      tryToSpawnProcess 0
  end.

Definition processDataCallback (commandOptionIndex : nat) (data : list byte)
  : M unit :=
  this <- this_ ;;
  if (Z.of_nat commandOptionIndex
      <? Z.of_nat (List.length (commandOptionsForProcessesToRun this)) - 1)%Z
  then
    (* Pass along to the next spawned process *)
    if (1 <? List.length (spawnedProcessObjects this))%nat then
      match nth_error (spawnedProcessObjects this) 1 with
      | Some next => call (process_receiveStdinChunk (process next) data)
      | None => raise (TypeErrorUndefined "process")
      end
    else
      let pending := initialStdinDataForNextProcess this in
      let newInitialStdinData :=
        Uint8Array_new (List.length data + List.length pending) in
      newInitialStdinData <-
        await (Uint8Array_set newInitialStdinData pending 0) ;;
      newInitialStdinData <-
        await (Uint8Array_set newInitialStdinData data
                 (List.length pending)) ;;
      set_initialStdinDataForNextProcess newInitialStdinData
  else
    (* Write the output to our terminal *)
    let dataString := TextDecoder.decode data in
    call (xterm_write (replace_LF_CRLF dataString)).

Definition processEndCallback (commandOptionIndex : nat)
  (processWorker : option Worker) : M unit :=
  match processWorker with
  | Some w => call (worker_terminate w)   (* Terminate our worker *)
  | None => ret tt
  end ;;
  (* Remove ourself from the spawned workers *)
  this <- this_ ;;
  set_spawnedProcessObjects (tl (spawnedProcessObjects this)) ;;
  this <- this_ ;;
  if (Z.of_nat commandOptionIndex
      <? Z.of_nat (List.length (commandOptionsForProcessesToRun this)) - 1)%Z
  then
    (* Try to spawn the next process, if we haven't already *)
    tryToSpawnProcess (commandOptionIndex + 1)
  else
    (* We are now done! Call the passed end callback *)
    set_isRunning false ;;
    call commandEndCallback.

Definition kill : M unit :=
  this <- this_ ;;
  if negb (isRunning this) then ret tt
  else
    fold_right
      (fun processObject rest =>
         match worker processObject with
         | Some w => call (worker_terminate w)
         | None => ret tt
         end ;; rest)
      (ret tt) (spawnedProcessObjects this) ;;
    set_commandOptionsForProcessesToRun [] ;;
    set_spawnedProcessObjects [] ;;
    set_isRunning false ;;
    call commandEndCallback.

Definition processErrorCallback (commandOptionIndex : nat) (error : string)
  : M unit :=
  this <- this_ ;;
  options <- match nth_error (commandOptionsForProcessesToRun this)
                             commandOptionIndex with
             | Some options => ret options
             | None => raise (TypeErrorUndefined "args")
             end ;;
  let program := match args options with
                 | name :: _ => name
                 | [] => "undefined"
                 end in
  call (xterm_write ("Program " ++ program ++ ": " ++ error ++ CRLF)) ;;
  kill ;;
  call commandEndCallback.

End Methods.

(** ** Runs of the orchestrator

    The runner reacts to its caller ([runCommand], [kill]) and to the
    callbacks of the processes it spawned.  Its logic runs on one thread:
    each reaction runs to its end before the next starts, the promises it
    awaits on the way (the options, the new process) settling before any
    other reaction.  A value thrown by a callback goes back to the process
    that called it and the runner stays as the callback left it. *)

Section Runs.

Context {host : Host}.

Inductive event : Type :=
| run_event
| data_event (commandOptionIndex : nat) (data : list byte)
| end_event (commandOptionIndex : nat) (processWorker : option Worker)
| error_event (commandOptionIndex : nat) (error : string)
| kill_event.

Definition react (e : event) : M unit :=
  match e with
  | run_event => runCommand
  | data_event i data => processDataCallback i data
  | end_event i w => processEndCallback i w
  | error_event i error => processErrorCallback i error
  | kill_event => kill
  end.

Fixpoint react_all (es : list event) (this : CommandRunner)
  : CommandRunner * list effect :=
  match es with
  | [] => (this, [])
  | e :: rest =>
      match react e this with
      | (_, this', out) =>
          match react_all rest this' with
          | (this'', out') => (this'', out ++ out')
          end
      end
  end.

(** Every sequence of reactions of a new runner. *)
Definition lifetime (commandString : string) (es : list event)
  : CommandRunner * list effect :=
  react_all es (constructor commandString).

Definition is_run_event (e : event) : bool :=
  match e with run_event => true | _ => false end.

(** One run: the command is started once, on a new runner. *)
Definition session (commandString : string) (es : list event)
  : CommandRunner * list effect :=
  lifetime commandString (run_event :: es).

(** What is observed of a sequence of calls. *)
Definition is_commandEndCallback (e : effect) : bool :=
  match e with commandEndCallback => true | _ => false end.

Definition is_process_start (e : effect) : bool :=
  match e with process_start _ => true | _ => false end.

Definition is_receiveStdinChunk (e : effect) : bool :=
  match e with process_receiveStdinChunk _ _ => true | _ => false end.

Definition completions (out : list effect) : nat :=
  List.length (filter is_commandEndCallback out).

Definition spawns (out : list effect) : nat :=
  List.length (filter is_process_start out).

Definition written (out : list effect) : list string :=
  flat_map (fun e => match e with xterm_write s => [s] | _ => [] end) out.

Definition live_workers (l : list SpawnedProcessObject) : list Worker :=
  flat_map (fun o => match worker o with Some w => [w] | None => [] end) l.

End Runs.

(** ** Command lines as written

    A simple command (name, arguments, environment assignments) and the
    tree that the parser gives for [c0 | c1 | ... | ck]: each command
    carries, as its only redirect, the pipe to the command on its right. *)

Record simple_command : Type := mkSimple {
  name : string;
  arguments : list string;
  assignments : list (string * string)
}.

Fixpoint pipeline_ast (first : simple_command) (rest : list simple_command)
  : ast :=
  Ast "command"
      (Token (name first))
      (map Token (arguments first))
      (map (fun kv => (fst kv, Token (snd kv))) (assignments first))
      (Some match rest with
            | [] => []
            | next :: rest' =>
                [Redirect "pipe" (Some (pipeline_ast next rest'))]
            end).

(** The same node with other redirects. *)
Definition with_redirects (a : ast) (reds : option (list redirect)) : ast :=
  match a with
  | Ast t c l e _ => Ast t c l e reds
  end.

(** ** A sample host

    The command table of the shell's page ([commands] in [index.tsx]): a
    module is named by the address it is fetched from, and a name outside
    the table is reported as not found.  The parser answers with a given
    tree, and no worker capability is offered. *)

Module Sample.

Definition commands : list (string * string) :=
  [ ("cowsay",
     "https://registry-cdn.wapm.dev/contents/_/cowsay/0.1.2/cowsay.wasm");
    ("a", "./assets/stdin.wasm");
    ("matrix",
     "https://registry-cdn.wapm.dev/contents/syrusakbary/wasm-matrix/0.0.4/optimized.wasm");
    ("lolcat",
     "https://registry-cdn.wapm.dev/contents/_/lolcat/0.1.1/lolcat.wasm") ].

Fixpoint lookup (table : list (string * string)) (key : string)
  : option string :=
  match table with
  | [] => None
  | (k, v) :: rest => if String.eqb k key then Some v else lookup rest key
  end.

Definition resolve (commandName : string) : completion string :=
  match lookup commands commandName with
  | Some url => normal url
  | None => throw (Error ("command not found " ++ commandName))
  end.

Definition host (parsed : completion (list ast)) : Host :=
  {| WasmModule := string;
     parse := fun _ => parsed;
     getWasmModuleForCommandName := resolve;
     window_SharedArrayBuffer := false;
     window_Atomics := false |}.

(** Simple commands of the table, and one whose name is outside it. *)
Definition cowsay_hi : simple_command := mkSimple "cowsay" ["hi"] [].
Definition stage_a : simple_command := mkSimple "a" [] [].
Definition stage_lolcat : simple_command := mkSimple "lolcat" [] [].
Definition stage_nope : simple_command := mkSimple "nope" [] [].

Definition utf8 (s : string) : list byte := list_byte_of_string s.

End Sample.

(** The options expected for a simple command whose module is [modules]
    of its name. *)
Definition options_of {host : Host} (modules : string -> WasmModule)
  (c : simple_command) : CommandOptions :=
  mkCommandOptions (name c :: arguments c) (assignments c) (modules (name c)).

(** The process that [spawnProcessAsService] makes for a stage. *)
Definition service_process {host : Host} (commandOptionIndex : nat)
  (this : CommandRunner) : Process :=
  mkProcess
    (nth_error (commandOptionsForProcessesToRun this) commandOptionIndex)
    commandOptionIndex
    (stdin_argument this).

(** The runner after a field is assigned. *)
Definition with_spawned {host : Host} (this : CommandRunner)
  (v : list SpawnedProcessObject) : CommandRunner :=
  mkCommandRunner (commandOptionsForProcessesToRun this) v
    (initialStdinDataForNextProcess this) (isRunning this)
    (commandString this).

Definition with_pending {host : Host} (this : CommandRunner)
  (v : list byte) : CommandRunner :=
  mkCommandRunner (commandOptionsForProcessesToRun this)
    (spawnedProcessObjects this) v (isRunning this) (commandString this).

(** The state a method leaves and the calls it made. *)
Definition after {host : Host} {A : Type}
  (r : completion A * CommandRunner * list effect) : CommandRunner :=
  snd (fst r).

Definition calls {host : Host} {A : Type}
  (r : completion A * CommandRunner * list effect) : list effect :=
  snd r.

(** The diagnostics of the runner. *)
Definition parse_error_text (message : string) : string :=
  "wapm shell: parse error (" ++ message ++ ")" ++ CRLF.

Definition program_error_text (program error : string) : string :=
  "Program " ++ program ++ ": " ++ error ++ CRLF.

(** [options.args[0]] inside a template literal. *)
Definition program_name {host : Host} (options : CommandOptions) : string :=
  match args options with
  | name :: _ => name
  | [] => "undefined"
  end.

(** [index < commandOptionsForProcessesToRun.length - 1]. *)
Definition before_last {host : Host} (index : nat) (this : CommandRunner)
  : bool :=
  (Z.of_nat index
   <? Z.of_nat (List.length (commandOptionsForProcessesToRun this)) - 1)%Z.

(** How the [try] block of [runCommand] completes on a parse result: with
    the options to run, or with the value it throws. *)
Definition try_block {host : Host} (commandAst : list ast)
  : completion (list CommandOptions) :=
  if (1 <? List.length commandAst)%nat
  then throw (Error "Only one command permitted")
  else match nth_error commandAst 0 with
       | None => throw (TypeErrorUndefined "type")
       | Some first =>
           if negb (String.eqb (ast_type first) "command")
           then throw (Error "Only commands allowed")
           else getCommandOptionsFromAST first
       end.

(** The number of live processes, and the ceiling that
    [tryToSpawnProcess] tests. *)
Definition live {host : Host} (this : CommandRunner) : nat :=
  List.length (spawnedProcessObjects this).

Definition ceiling : nat := 2.

(** No chunk was handed to a live process. *)
Definition no_handoff {host : Host} (out : list effect) : Prop :=
  existsb is_receiveStdinChunk out = false.

(** The processes started by a sequence of calls. *)
Definition started {host : Host} (out : list effect) : list Process :=
  flat_map (fun e => match e with process_start p => [p] | _ => [] end) out.

(** The stdin argument for given pending data. *)
Definition stdin_of (pending : list byte) : option (list byte) :=
  match pending with
  | [] => None
  | _ :: _ => Some pending
  end.

(** A run in which every stage behaves: stage [i] gives its chunks and
    ends, then stage [i + 1] does, up to the last one. *)
Fixpoint pipeline_events {host : Host} (i : nat)
  (chunks_of_stages : list (list (list byte))) : list event :=
  match chunks_of_stages with
  | [] => []
  | chunks :: later =>
      map (data_event i) chunks
      ++ end_event i None :: pipeline_events (S i) later
  end.

(** The calls expected of such a run once stage [i] is started: each
    further stage is started with what the stage before it gave, the chunks
    of the last stage are written, and the completion callback is called. *)
Fixpoint pipeline_calls {host : Host} (options : list CommandOptions)
  (i : nat) (chunks_of_stages : list (list (list byte))) : list effect :=
  match chunks_of_stages with
  | [] => []
  | chunks :: later =>
      match later with
      | [] =>
          map (fun chunk =>
                 xterm_write (replace_LF_CRLF (TextDecoder.decode chunk)))
              chunks
          ++ [commandEndCallback]
      | _ :: _ =>
          process_start
            (mkProcess (nth_error options (S i)) (S i)
               (stdin_of (List.concat chunks)))
          :: pipeline_calls options (S i) later
      end
  end.

(** Every line feed of a text comes right after a carriage return. *)
Fixpoint LF_follows_CR (after_CR : bool) (s : string) : bool :=
  match s with
  | EmptyString => true
  | String c rest =>
      (if Ascii.eqb c LF then after_CR else true)
      && LF_follows_CR (Ascii.eqb c CR) rest
  end.

(** ** Well-formed UTF-8 and the rewriting of line feeds, as specified

    The byte sequences that encode one character (Unicode, table 3-7,
    "well-formed UTF-8 byte sequences"), the sequences that are the
    beginning of one and stop short, and the text in which every line feed
    is rewritten to a carriage return and a line feed.  These follow the
    words of the specification, not the code; the code is compared with
    them. *)





(** The nodes met from a node by following the first redirect while it is
    a pipe: the stages of the chain as written. *)
Fixpoint pipe_chain (a : ast) : list ast :=
  a :: match a with
       | Ast _ _ _ _ (Some (Redirect rtype (Some target) :: _)) =>
           if String.eqb rtype "pipe" then pipe_chain target else []
       | _ => []
       end.





(** Unfolding of the method combinators. *)
Ltac unfold_M :=
  unfold bind, ret, raise, try, await, this_, call,
    set_commandOptionsForProcessesToRun, set_spawnedProcessObjects,
    set_initialStdinDataForNextProcess, set_isRunning.

(** * Properties of the builder *)

Section BuilderProperties.

Context {host : Host}.

Lemma map_value_Token (l : list string) : map value (map Token l) = l.
Proof.
  induction l as [|x l IH]; simpl; [reflexivity|].
  now rewrite IH.
Qed.

Lemma map_value_assignments (l : list (string * string)) :
  map (fun kv => (fst kv, value (snd kv)))
      (map (fun kv => (fst kv, Token (snd kv))) l) = l.
Proof.
  induction l as [|[k v] l IH]; simpl; [reflexivity|].
  now rewrite IH.
Qed.

(** The builder on a node, by the shape of its redirects. *)
Lemma build_no_pipe t c l e reds :
  match reds with
  | Some (Redirect rtype _ :: _) => String.eqb rtype "pipe" = false
  | _ => True
  end ->
  getCommandOptionsFromAST (Ast t c l e reds) =
  andThen (getWasmModuleForCommandName (value c)) (fun wasmModule =>
    normal [mkCommandOptions (value c :: map value l)
              (map (fun kv => (fst kv, value (snd kv))) e) wasmModule]).
Proof.
  intros H. simpl.
  destruct reds as [[|[rtype rcommand] rs]|]; simpl; try reflexivity.
  now rewrite H.
Qed.

Lemma build_pipe t c l e target rs :
  getCommandOptionsFromAST
    (Ast t c l e (Some (Redirect "pipe" (Some target) :: rs))) =
  andThen (getCommandOptionsFromAST target) (fun commandOptions =>
  andThen (getWasmModuleForCommandName (value c)) (fun wasmModule =>
    normal (mkCommandOptions (value c :: map value l)
              (map (fun kv => (fst kv, value (snd kv))) e) wasmModule
            :: commandOptions))).
Proof.
  simpl. now destruct (getCommandOptionsFromAST target).
Qed.

Lemma build_pipeline (modules : string -> WasmModule) :
  forall rest first,
    (forall c, In c (first :: rest) ->
               getWasmModuleForCommandName (name c) = normal (modules (name c))) ->
    getCommandOptionsFromAST (pipeline_ast first rest) =
    normal (map (options_of modules) (first :: rest)).
Proof.
  induction rest as [|next rest IH]; intros first Hres.
  - simpl. rewrite (Hres first (or_introl eq_refl)). simpl.
    unfold options_of.
    now rewrite map_value_Token, map_value_assignments.
  - cbn [pipeline_ast]. rewrite build_pipe.
    rewrite IH by (intros c Hc; apply Hres; now right).
    cbn [andThen value].
    rewrite (Hres first (or_introl eq_refl)).
    cbn [andThen map]. unfold options_of at 1.
    now rewrite map_value_Token, map_value_assignments.
Qed.

(** C3. For a chain of k pipes [first | c1 | ... | ck] whose command names
    all resolve, the builder returns k+1 options in the order written, each
    with the command name followed by its arguments; for a single command
    it returns exactly one. *)
Theorem C3_build_returns_stages_in_written_order
  (modules : string -> WasmModule) (first : simple_command)
  (rest : list simple_command) :
  (forall c, In c (first :: rest) ->
             getWasmModuleForCommandName (name c) = normal (modules (name c))) ->
  exists specs,
    getCommandOptionsFromAST (pipeline_ast first rest) = normal specs
    /\ specs = map (options_of modules) (first :: rest)
    /\ List.length specs = List.length rest + 1
    /\ map args specs = map (fun c => name c :: arguments c) (first :: rest)
    /\ getCommandOptionsFromAST (pipeline_ast first []) =
       normal [mkCommandOptions (name first :: arguments first)
                 (assignments first) (modules (name first))].
Proof.
  intros Hres.
  exists (map (options_of modules) (first :: rest)).
  split; [now apply build_pipeline|].
  split; [reflexivity|].
  split; [rewrite length_map; simpl; lia|].
  split; [now rewrite map_map|].
  apply (build_pipeline modules [] first).
  intros c [<-|[]]. apply Hres. now left.
Qed.

(** C10. Only the first redirect of a node is looked at.  The redirects
    after the first never change the result; and when the first is not a
    pipe, the result is the one of the node without any redirect: the
    single options of the node when its name resolves, never a failure
    caused by the redirect. *)
Theorem C10_only_first_redirect_is_examined
  (a : ast) (r : redirect) (rs : list redirect) :
  ast_redirects a = Some (r :: rs) ->
  (forall rs', getCommandOptionsFromAST a =
               getCommandOptionsFromAST (with_redirects a (Some (r :: rs'))))
  /\ (redirect_type r <> "pipe" ->
      getCommandOptionsFromAST a =
        getCommandOptionsFromAST (with_redirects a (Some []))
      /\ getCommandOptionsFromAST a =
        getCommandOptionsFromAST (with_redirects a None)
      /\ forall wasmModule,
           getWasmModuleForCommandName (value (ast_command a))
             = normal wasmModule ->
           getCommandOptionsFromAST a =
             normal [mkCommandOptions
                       (value (ast_command a) :: map value (ast_args a))
                       (map (fun kv => (fst kv, value (snd kv))) (ast_env a))
                       wasmModule]).
Proof.
  destruct a as [t c l e reds]. simpl. intros ->.
  split.
  - intros rs'. destruct r as [rtype rcommand]. reflexivity.
  - destruct r as [rtype rcommand]. simpl. intros Hnp.
    assert (Hb : String.eqb rtype "pipe" = false)
      by now apply String.eqb_neq.
    rewrite Hb. repeat split.
    intros wasmModule ->. reflexivity.
Qed.

End BuilderProperties.

(** [a > f | lolcat]: the node of [a] holds a file redirect and then the
    pipe. *)
Lemma C10_witness :
  let a := with_redirects (pipeline_ast Sample.stage_a [])
             (Some [Redirect "redirectFd" None;
                    Redirect "pipe" (Some (pipeline_ast Sample.stage_lolcat []))]) in
  @getCommandOptionsFromAST (Sample.host (normal [a])) a =
  normal [mkCommandOptions (host := Sample.host (normal [a]))
            ["a"] [] "./assets/stdin.wasm"].
Proof.
  intros a.
  destruct (@C10_only_first_redirect_is_examined (Sample.host (normal [a])) a
              (Redirect "redirectFd" None)
              [Redirect "pipe" (Some (pipeline_ast Sample.stage_lolcat []))]
              eq_refl) as [_ H].
  destruct H as (_ & _ & H).
  - simpl. discriminate.
  - apply (H "./assets/stdin.wasm"). reflexivity.
Defined.

(** [a | lolcat | cowsay hi] on the sample host. *)
Lemma C3_witness :
  @getCommandOptionsFromAST (Sample.host (throw (Error "")))
    (pipeline_ast Sample.stage_a [Sample.stage_lolcat; Sample.cowsay_hi]) =
  normal (map (options_of (host := Sample.host (throw (Error "")))
                 (fun n => match Sample.lookup Sample.commands n with
                           | Some url => url
                           | None => ""
                           end))
              [Sample.stage_a; Sample.stage_lolcat; Sample.cowsay_hi]).
Proof.
  destruct (@C3_build_returns_stages_in_written_order
              (Sample.host (throw (Error "")))
              (fun n => match Sample.lookup Sample.commands n with
                        | Some url => url
                        | None => ""
                        end)
              Sample.stage_a [Sample.stage_lolcat; Sample.cowsay_hi])
    as (specs & Hb & Hs & _).
  - intros c [<-|[<-|[<-|[]]]]; reflexivity.
  - rewrite Hb, Hs. reflexivity.
Defined.

(** * Properties of the orchestrator *)

Section RunnerProperties.

Context {host : Host}.

(** ** What each method computes *)

Lemma Uint8Array_concat (pending data : list byte) :
  andThen (Uint8Array_set
             (Uint8Array_new (List.length data + List.length pending))
             pending 0)
          (fun buffer => Uint8Array_set buffer data (List.length pending))
  = normal (pending ++ data).
Proof.
  unfold Uint8Array_set, Uint8Array_new.
  rewrite repeat_length. cbn [Nat.add firstn app].
  replace (List.length pending <=? List.length data + List.length pending)%nat
    with true by (symmetry; apply Nat.leb_le; lia).
  cbn [andThen].
  rewrite length_app, length_skipn, repeat_length.
  replace (List.length pending + List.length data
           <=? List.length pending
               + (List.length data + List.length pending - List.length pending))%nat
    with true by (symmetry; apply Nat.leb_le; lia).
  f_equal.
  rewrite firstn_app, firstn_all, Nat.sub_diag. cbn [firstn].
  rewrite app_nil_r.
  rewrite skipn_all2; [now rewrite app_nil_r|].
  rewrite length_app, length_skipn, repeat_length. lia.
Qed.

Lemma spawnProcess_eq (i : nat) (this : CommandRunner) :
  spawnProcess i this =
  (normal tt,
   mkCommandRunner (commandOptionsForProcessesToRun this)
     (spawnedProcessObjects this ++ [mkSpawned (service_process i this) None])
     [] (isRunning this) (commandString this),
   [process_start (service_process i this)]).
Proof.
  unfold spawnProcess, spawnProcessAsService, spawnProcessAsWorker.
  rewrite Bool.andb_false_r. unfold_M.
  destruct this as [opts live pending running cmd]; cbn.
  destruct pending; reflexivity.
Qed.

Lemma tryToSpawnProcess_eq (i : nat) (this : CommandRunner) :
  tryToSpawnProcess i this =
  if (List.length (spawnedProcessObjects this) <? 2)%nat
     && (i <? List.length (commandOptionsForProcessesToRun this))%nat
  then spawnProcess i this
  else (normal tt, this, []).
Proof.
  unfold tryToSpawnProcess. unfold_M.
  destruct (_ && _).
  - now destruct (spawnProcess i this) as [[[] ?] ?].
  - reflexivity.
Qed.

Lemma kill_idle (this : CommandRunner) :
  isRunning this = false -> kill this = (normal tt, this, []).
Proof.
  intros H. unfold kill. unfold_M. now rewrite H.
Qed.

Lemma bind_eq {A B : Type} (m : M A) (k : A -> M B) (this : CommandRunner) :
  bind m k this =
  match m this with
  | (normal a, this', out) =>
      match k a this' with
      | (r, this'', out') => (r, this'', out ++ out')
      end
  | (throw c, this', out) => (throw c, this', out)
  end.
Proof. reflexivity. Qed.

Lemma call_eq (e : effect) (this : CommandRunner) :
  call e this = (normal tt, this, [e]).
Proof. reflexivity. Qed.

Lemma ret_eq {A : Type} (a : A) (this : CommandRunner) :
  ret a this = (normal a, this, []).
Proof. reflexivity. Qed.

Lemma terminate_each (l : list SpawnedProcessObject) (this : CommandRunner) :
  fold_right
    (fun processObject rest =>
       match worker processObject with
       | Some w => call (worker_terminate w)
       | None => ret tt
       end ;; rest)
    (ret tt) l this
  = (normal tt, this, map worker_terminate (live_workers l)).
Proof.
  induction l as [|o l IH]; [reflexivity|].
  cbn [fold_right]. rewrite bind_eq.
  unfold live_workers; cbn [flat_map]; fold (live_workers l).
  destruct (worker o) as [w|]; [rewrite call_eq|rewrite ret_eq];
    rewrite IH; reflexivity.
Qed.

Lemma kill_running (this : CommandRunner) :
  isRunning this = true ->
  kill this =
  (normal tt,
   mkCommandRunner [] [] (initialStdinDataForNextProcess this) false
     (commandString this),
   map worker_terminate (live_workers (spawnedProcessObjects this))
   ++ [commandEndCallback]).
Proof.
  intros H. unfold kill. rewrite bind_eq. unfold this_ at 1.
  rewrite H. cbn [negb].
  rewrite bind_eq, terminate_each.
  unfold_M. cbn. reflexivity.
Qed.

Lemma before_last_true (i : nat) (this : CommandRunner) :
  before_last i this = true <->
  i + 1 < List.length (commandOptionsForProcessesToRun this).
Proof. unfold before_last. rewrite Z.ltb_lt. lia. Qed.

Lemma before_last_false (i : nat) (this : CommandRunner) :
  before_last i this = false <->
  List.length (commandOptionsForProcessesToRun this) <= i + 1.
Proof. unfold before_last. rewrite Z.ltb_ge. lia. Qed.

Lemma processDataCallback_eq (i : nat) (data : list byte)
  (this : CommandRunner) :
  processDataCallback i data this =
  if before_last i this then
    if (1 <? List.length (spawnedProcessObjects this))%nat then
      match nth_error (spawnedProcessObjects this) 1 with
      | Some next =>
          (normal tt, this, [process_receiveStdinChunk (process next) data])
      | None => (throw (TypeErrorUndefined "process"), this, [])
      end
    else
      (normal tt,
       with_pending this (initialStdinDataForNextProcess this ++ data), [])
  else
    (normal tt, this,
     [xterm_write (replace_LF_CRLF (TextDecoder.decode data))]).
Proof.
  unfold processDataCallback. rewrite bind_eq. unfold this_ at 1.
  cbv beta iota. fold (before_last i this).
  destruct (before_last i this); [|reflexivity].
  destruct (1 <? _)%nat.
  - destruct (nth_error _ 1); reflexivity.
  - pose proof (Uint8Array_concat (initialStdinDataForNextProcess this) data)
      as Hcat.
    unfold andThen in Hcat.
    rewrite bind_eq. unfold await at 1.
    destruct (Uint8Array_set _ _ 0) as [buffer|]; [|discriminate].
    rewrite bind_eq. unfold await at 1. rewrite Hcat. reflexivity.
Qed.

Lemma processEndCallback_eq (i : nat) (w : option Worker)
  (this : CommandRunner) :
  processEndCallback i w this =
  let released := match w with
                  | Some w => [worker_terminate w]
                  | None => []
                  end in
  let this' := with_spawned this (tl (spawnedProcessObjects this)) in
  if before_last i this then
    match tryToSpawnProcess (i + 1) this' with
    | (r, this'', out) => (r, this'', released ++ out)
    end
  else
    (normal tt,
     mkCommandRunner (commandOptionsForProcessesToRun this)
       (tl (spawnedProcessObjects this))
       (initialStdinDataForNextProcess this) false (commandString this),
     released ++ [commandEndCallback]).
Proof.
  unfold processEndCallback. cbv zeta.
  change (before_last i this)
    with (before_last i (with_spawned this (tl (spawnedProcessObjects this)))).
  set (this' := with_spawned this (tl (spawnedProcessObjects this))).
  rewrite bind_eq.
  assert (Hfirst :
    match w with
    | Some w0 => call (worker_terminate w0)
    | None => ret tt
    end this =
    (normal tt, this,
     match w with Some w0 => [worker_terminate w0] | None => [] end))
    by (destruct w; reflexivity).
  rewrite Hfirst. clear Hfirst.
  rewrite bind_eq. unfold this_ at 1. cbv beta iota.
  rewrite bind_eq. unfold set_spawnedProcessObjects at 1. cbv beta iota.
  fold (with_spawned this (tl (spawnedProcessObjects this))). fold this'.
  rewrite bind_eq. unfold this_ at 1. cbv beta iota.
  fold (before_last i this').
  destruct (before_last i this').
  - destruct (tryToSpawnProcess (i + 1) this') as [[r s] out].
    now rewrite !app_nil_l.
  - unfold_M. cbn. destruct w; reflexivity.
Qed.

Lemma processErrorCallback_eq (i : nat) (error : string)
  (this : CommandRunner) :
  processErrorCallback i error this =
  match nth_error (commandOptionsForProcessesToRun this) i with
  | None => (throw (TypeErrorUndefined "args"), this, [])
  | Some options =>
      (normal tt, after (kill this),
       [xterm_write (program_error_text (program_name options) error)]
       ++ calls (kill this) ++ [commandEndCallback])
  end.
Proof.
  unfold processErrorCallback. rewrite bind_eq. unfold this_ at 1.
  cbv beta iota. rewrite bind_eq.
  destruct (nth_error _ i) as [options|]; [|reflexivity].
  rewrite ret_eq. cbv beta iota zeta.
  rewrite bind_eq, call_eq. rewrite bind_eq.
  destruct (isRunning this) eqn:Hrun.
  - rewrite (kill_running this Hrun). rewrite call_eq. reflexivity.
  - rewrite (kill_idle this Hrun). rewrite call_eq. reflexivity.
Qed.

Lemma runCommand_eq (this : CommandRunner) :
  runCommand this =
  match parse (commandString this) with
  | throw c => (throw c, this, [])
  | normal commandAst =>
      match try_block commandAst with
      | throw c =>
          (normal tt, this,
           [xterm_write (parse_error_text (toString c)); commandEndCallback])
      | normal options =>
          tryToSpawnProcess 0
            (mkCommandRunner options (spawnedProcessObjects this)
               (initialStdinDataForNextProcess this) true
               (commandString this))
      end
  end.
Proof.
  unfold runCommand, try_block.
  rewrite bind_eq. unfold this_ at 1. cbv beta iota.
  rewrite bind_eq. unfold await at 1.
  destruct (parse (commandString this)) as [commandAst|c]; [|reflexivity].
  rewrite bind_eq. unfold try at 1.
  rewrite bind_eq.
  destruct (1 <? List.length commandAst)%nat; [reflexivity|].
  rewrite ret_eq. cbv beta iota.
  rewrite bind_eq.
  destruct (nth_error commandAst 0) as [first|]; [|reflexivity].
  rewrite ret_eq. cbv beta iota.
  rewrite bind_eq.
  destruct (negb (String.eqb (ast_type first) "command")); [reflexivity|].
  rewrite ret_eq. cbv beta iota.
  rewrite bind_eq. unfold await at 1.
  destruct (getCommandOptionsFromAST first) as [options|c]; [|reflexivity].
  unfold set_commandOptionsForProcessesToRun at 1. cbv beta iota.
  rewrite bind_eq. unfold set_isRunning at 1. cbv beta iota.
  cbn [commandOptionsForProcessesToRun spawnedProcessObjects
       initialStdinDataForNextProcess isRunning commandString].
  destruct (tryToSpawnProcess 0 _) as [[r s] out]. reflexivity.
Qed.

(** ** Reporting of failures before the first spawn *)

Lemma runCommand_try_block_failure (cmd : string) (commandAst : list ast)
  (c : thrown) :
  parse cmd = normal commandAst ->
  try_block commandAst = throw c ->
  runCommand (constructor cmd) =
  (normal tt, constructor cmd,
   [xterm_write (parse_error_text (toString c)); commandEndCallback]).
Proof.
  intros Hparse Htry. rewrite runCommand_eq.
  cbn [constructor commandString]. now rewrite Hparse, Htry.
Qed.

(** C5. When the parse result holds more than one statement, or a single
    statement that is not a command, [runCommand] writes the one diagnostic
    [wapm shell: parse error (<message>)\r\n], calls the completion
    callback once, spawns nothing and leaves the runner as it was made: not
    running, with no process. *)
Theorem C5_parse_failure_is_reported_once
  (cmd : string) (commandAst : list ast) :
  parse cmd = normal commandAst ->
  (1 < List.length commandAst
   \/ exists statement,
        commandAst = [statement] /\ ast_type statement <> "command") ->
  let message :=
    if (1 <? List.length commandAst)%nat
    then "Error: Only one command permitted"
    else "Error: Only commands allowed" in
  let r := runCommand (constructor cmd) in
  r = (normal tt, constructor cmd,
       [xterm_write (parse_error_text message); commandEndCallback])
  /\ written (calls r) = [parse_error_text message]
  /\ completions (calls r) = 1
  /\ spawns (calls r) = 0
  /\ spawnedProcessObjects (after r) = []
  /\ isRunning (after r) = false.
Proof.
  intros Hparse Hbad message r.
  assert (Htry : try_block commandAst = throw
            (if (1 <? List.length commandAst)%nat
             then Error "Only one command permitted"
             else Error "Only commands allowed")).
  { unfold try_block. destruct Hbad as [Hmany|(statement & -> & Hkind)].
    - apply Nat.ltb_lt in Hmany. now rewrite Hmany.
    - cbn. apply String.eqb_neq in Hkind. now rewrite Hkind. }
  assert (Hr : r = (normal tt, constructor cmd,
                    [xterm_write (parse_error_text message);
                     commandEndCallback])).
  { unfold r. rewrite (runCommand_try_block_failure cmd _ _ Hparse Htry).
    unfold message. now destruct (1 <? List.length commandAst)%nat. }
  rewrite Hr. repeat split.
Qed.

Lemma build_pipeline_failure_is_resolution :
  forall rest first c,
    getCommandOptionsFromAST (pipeline_ast first rest) = throw c ->
    exists stage,
      In stage (first :: rest)
      /\ getWasmModuleForCommandName (name stage) = throw c.
Proof.
  induction rest as [|next rest IH]; intros first c.
  - cbn. destruct (getWasmModuleForCommandName (name first)) eqn:Hres;
      cbn; [discriminate|]. intros [= <-]. exists first. auto.
  - cbn [pipeline_ast]. rewrite build_pipe.
    destruct (getCommandOptionsFromAST (pipeline_ast next rest))
      as [inner|c'] eqn:Hinner; cbn [andThen value].
    + destruct (getWasmModuleForCommandName (name first)) eqn:Hres;
        cbn; [discriminate|]. intros [= <-]. exists first. split; auto.
    + intros [= <-]. destruct (IH next c' Hinner) as (stage & Hin & Hs).
      exists stage. split; [now right|assumption].
Qed.

Lemma build_pipeline_unresolved_fails :
  forall rest first failing c,
    In failing (first :: rest) ->
    getWasmModuleForCommandName (name failing) = throw c ->
    exists c', getCommandOptionsFromAST (pipeline_ast first rest) = throw c'.
Proof.
  induction rest as [|next rest IH]; intros first failing c Hin Hfail.
  - destruct Hin as [<-|[]]. cbn. rewrite Hfail. cbn. eauto.
  - cbn [pipeline_ast]. rewrite build_pipe.
    destruct (getCommandOptionsFromAST (pipeline_ast next rest))
      as [inner|c'] eqn:Hinner; cbn [andThen value].
    + destruct Hin as [<-|Hin].
      * rewrite Hfail. cbn. eauto.
      * destruct (IH next failing c Hin Hfail) as (c' & Hc').
        congruence.
    + eauto.
Qed.

(** C2, as the code has it.  When the resolver fails on the name of a stage
    of [first | ... ] while the options are built, the failure is caught by
    the same [catch] as a parse failure: [runCommand] completes normally,
    writes the one diagnostic [wapm shell: parse error (<failure>)\r\n]
    for a resolver failure of the chain, calls the completion callback
    once, spawns nothing and leaves the runner not running. *)
Theorem C2_resolution_failure_is_reported_as_parse_error
  (cmd : string) (first : simple_command) (rest : list simple_command)
  (failing : simple_command) (c : thrown) :
  parse cmd = normal [pipeline_ast first rest] ->
  In failing (first :: rest) ->
  getWasmModuleForCommandName (name failing) = throw c ->
  exists c',
    (exists stage, In stage (first :: rest)
                   /\ getWasmModuleForCommandName (name stage) = throw c')
    /\ let r := runCommand (constructor cmd) in
       r = (normal tt, constructor cmd,
            [xterm_write (parse_error_text (toString c'));
             commandEndCallback])
       /\ completions (calls r) = 1
       /\ spawns (calls r) = 0
       /\ isRunning (after r) = false.
Proof.
  intros Hparse Hin Hfail.
  destruct (build_pipeline_unresolved_fails rest first failing c Hin Hfail)
    as (c' & Hbuild).
  exists c'. split; [now apply build_pipeline_failure_is_resolution|].
  assert (Htry : try_block [pipeline_ast first rest] = throw c').
  { unfold try_block. cbn [List.length Nat.ltb Nat.leb nth_error].
    destruct rest; cbn [pipeline_ast ast_type String.eqb negb];
      cbn; exact Hbuild. }
  cbv zeta. rewrite (runCommand_try_block_failure cmd _ _ Hparse Htry).
  repeat split.
Qed.

(** ** [kill] *)

(** C8, as the code has it.  [kill] on a runner that is not running returns
    without a call and leaves every field as it was; on a running one it
    terminates the worker of every live process that holds one and makes no
    call on a live process that holds none, empties the options and the
    live processes, clears the running flag and calls the completion
    callback once. *)
Theorem C8_kill_is_noop_when_idle_and_unwinds_when_running
  (this : CommandRunner) :
  (isRunning this = false ->
   kill this = (normal tt, this, [])
   /\ after (kill this) = this
   /\ completions (calls (kill this)) = 0)
  /\ (isRunning this = true ->
      kill this =
        (normal tt,
         mkCommandRunner [] [] (initialStdinDataForNextProcess this) false
           (commandString this),
         map worker_terminate (live_workers (spawnedProcessObjects this))
         ++ [commandEndCallback])
      /\ commandOptionsForProcessesToRun (after (kill this)) = []
      /\ spawnedProcessObjects (after (kill this)) = []
      /\ isRunning (after (kill this)) = false
      /\ completions (calls (kill this)) = 1).
Proof.
  split; intros Hrun.
  - rewrite (kill_idle this Hrun). repeat split.
  - rewrite (kill_running this Hrun). repeat split.
    unfold completions, calls. cbn [snd].
    rewrite filter_app. cbn.
    induction (live_workers (spawnedProcessObjects this)) as [|w l IH];
      [reflexivity|exact IH].
Qed.

(** ** Routing of the data of a stage *)

Lemma handler_ascii (b : byte) :
  (Byte.to_N b < 128)%N ->
  TextDecoder.handler TextDecoder.initial b = ([b], TextDecoder.initial).
Proof.
  intros Hb. unfold TextDecoder.handler, TextDecoder.initial at 1.
  cbn [TextDecoder.bytes_needed].
  unfold TextDecoder.lead, TextDecoder.between.
  replace (Byte.to_N b <=? 127)%N with true
    by (symmetry; apply N.leb_le; lia).
  replace (0 <=? Byte.to_N b)%N with true
    by (symmetry; apply N.leb_le; lia).
  reflexivity.
Qed.

Lemma decode_run_ascii (data : list byte) :
  Forall (fun b => (Byte.to_N b < 128)%N) data ->
  TextDecoder.run TextDecoder.initial data = data.
Proof.
  induction 1 as [|b data Hb _ IH]; [reflexivity|].
  cbn [TextDecoder.run]. rewrite (handler_ascii b Hb).
  now rewrite IH.
Qed.

(** The decoder on the euro sign, on a sequence cut short, on an overlong
    form and behind a byte order mark. *)
Example decode_euro :
  list_byte_of_string (TextDecoder.decode [xe2; x82; xac]) = [xe2; x82; xac].
Proof. reflexivity. Qed.

Example decode_truncated :
  list_byte_of_string (TextDecoder.decode [x68; xe2; x82]) =
  x68 :: TextDecoder.replacement_character.
Proof. reflexivity. Qed.

Example decode_overlong :
  list_byte_of_string (TextDecoder.decode [xc0; x8a]) =
  TextDecoder.replacement_character ++ TextDecoder.replacement_character.
Proof. reflexivity. Qed.

Example decode_byte_order_mark :
  TextDecoder.decode [xef; xbb; xbf; x68; x69] = "hi".
Proof. reflexivity. Qed.

(** Text in ASCII is decoded to itself. *)
Lemma decode_ascii (data : list byte) :
  Forall (fun b => (Byte.to_N b < 128)%N) data ->
  TextDecoder.decode data = string_of_list_byte data.
Proof.
  intros H. unfold TextDecoder.decode. rewrite (decode_run_ascii data H).
  destruct H as [|b data Hb _]; [reflexivity|].
  destruct b; try reflexivity; cbn in Hb; lia.
Qed.

(** The newline translation adds one character per line feed, and nothing
    else. *)
Lemma replace_LF_CRLF_length (s : string) :
  String.length (replace_LF_CRLF s) =
  String.length s
  + List.length (filter (Ascii.eqb LF) (list_ascii_of_string s)).
Proof.
  induction s as [|c s IH]; [reflexivity|].
  cbn [replace_LF_CRLF list_ascii_of_string filter].
  rewrite (Ascii.eqb_sym LF c).
  destruct (Ascii.eqb c LF); cbn [String.length List.length]; rewrite IH; lia.
Qed.






(** ** The completion callback *)

Lemma completions_app (out out' : list effect) :
  completions (out ++ out') = completions out + completions out'.
Proof. unfold completions. now rewrite filter_app, length_app. Qed.

Lemma completions_terminate (l : list Worker) :
  completions (map worker_terminate l) = 0.
Proof. induction l as [|w l IH]; [reflexivity|exact IH]. Qed.

(** An error reported while running reaches the completion callback twice:
    once in [kill] and once more after it. *)
Lemma processErrorCallback_completes_twice (i : nat) (error : string)
  (options : CommandOptions) (this : CommandRunner) :
  isRunning this = true ->
  nth_error (commandOptionsForProcessesToRun this) i = Some options ->
  completions (calls (processErrorCallback i error this)) = 2.
Proof.
  intros Hrun Hi. rewrite processErrorCallback_eq, Hi.
  rewrite (kill_running this Hrun). unfold calls; cbn [snd].
  rewrite !completions_app, completions_terminate. reflexivity.
Qed.

(** The other ways a run stops reach it once. *)
Lemma processEndCallback_last_completes_once (i : nat) (w : option Worker)
  (this : CommandRunner) :
  List.length (commandOptionsForProcessesToRun this) <= i + 1 ->
  completions (calls (processEndCallback i w this)) = 1
  /\ isRunning (after (processEndCallback i w this)) = false.
Proof.
  intros Hlast. apply before_last_false in Hlast.
  rewrite processEndCallback_eq. cbv zeta. rewrite Hlast.
  unfold calls, after; cbn [fst snd isRunning].
  split; [|reflexivity]. now destruct w.
Qed.

(** ** The number of live processes *)

Lemma tryToSpawnProcess_live (i : nat) (this : CommandRunner) :
  live (after (tryToSpawnProcess i this)) = live this
  \/ (live this < ceiling
      /\ live (after (tryToSpawnProcess i this)) = S (live this)).
Proof.
  rewrite tryToSpawnProcess_eq.
  destruct (List.length (spawnedProcessObjects this) <? 2)%nat eqn:Hroom;
    cbn [andb]; [|now left].
  destruct (i <? _)%nat; [|now left].
  right. apply Nat.ltb_lt in Hroom. split; [exact Hroom|].
  rewrite spawnProcess_eq. unfold live, after.
  cbn [fst snd spawnedProcessObjects].
  rewrite length_app. cbn. lia.
Qed.

Lemma tryToSpawnProcess_no_handoff (i : nat) (this : CommandRunner) :
  no_handoff (calls (tryToSpawnProcess i this)).
Proof.
  rewrite tryToSpawnProcess_eq.
  destruct (_ && _); [rewrite spawnProcess_eq|]; reflexivity.
Qed.

Lemma kill_live (this : CommandRunner) : live (after (kill this)) <= live this.
Proof.
  destruct (isRunning this) eqn:Hrun.
  - rewrite (kill_running this Hrun). unfold live, after. cbn. lia.
  - rewrite (kill_idle this Hrun). reflexivity.
Qed.

Lemma no_handoff_terminate (l : list Worker) (out : list effect) :
  no_handoff out -> no_handoff (map worker_terminate l ++ out).
Proof.
  intros H. induction l as [|w l IH]; [exact H|exact IH].
Qed.

Lemma kill_no_handoff (this : CommandRunner) : no_handoff (calls (kill this)).
Proof.
  destruct (isRunning this) eqn:Hrun.
  - rewrite (kill_running this Hrun). unfold calls; cbn [snd].
    now apply no_handoff_terminate.
  - now rewrite (kill_idle this Hrun).
Qed.

Lemma live_tl (this : CommandRunner) :
  live (with_spawned this (tl (spawnedProcessObjects this))) = pred (live this).
Proof.
  unfold live, with_spawned. cbn [spawnedProcessObjects].
  now destruct (spawnedProcessObjects this).
Qed.

(** What a callback or [kill] does to the number of live processes: it
    never grows, except by the one spawn that follows the removal of an
    ended process. *)
Lemma react_callback_live (e : event) (this : CommandRunner) :
  is_run_event e = false ->
  live (after (react e this)) <= live this
  \/ (exists i w, e = end_event i w)
     /\ live (after (react e this)) = S (pred (live this))
     /\ pred (live this) < ceiling.
Proof.
  destruct e as [|i data|i w|i error|]; cbn [is_run_event react];
    intros Hrun; try discriminate.
  - left. rewrite processDataCallback_eq.
    destruct (before_last i this); [|reflexivity].
    destruct (1 <? _)%nat; [|reflexivity].
    destruct (nth_error _ 1); reflexivity.
  - rewrite processEndCallback_eq. cbv zeta.
    destruct (before_last i this).
    + pose proof (tryToSpawnProcess_live (i + 1)
                    (with_spawned this (tl (spawnedProcessObjects this))))
        as Hspawn.
      rewrite live_tl in Hspawn.
      destruct (tryToSpawnProcess (i + 1) _) as [[r s] out].
      unfold after in *. cbn [fst snd] in *.
      destruct Hspawn as [Hsame|[Hroom Hmore]].
      * left. lia.
      * right. split; [eauto|]. split; assumption.
    + left. unfold live, after. cbn [fst snd spawnedProcessObjects].
      destruct (spawnedProcessObjects this); cbn; lia.
  - left. rewrite processErrorCallback_eq.
    destruct (nth_error _ i); [|reflexivity].
    apply kill_live.
  - left. apply kill_live.
Qed.

Lemma runCommand_live (this : CommandRunner) :
  live (after (runCommand this)) = live this
  \/ (live this < ceiling /\ live (after (runCommand this)) = S (live this)).
Proof.
  rewrite runCommand_eq.
  destruct (parse (commandString this)) as [commandAst|c]; [|now left].
  destruct (try_block commandAst) as [options|c]; [|now left].
  apply (tryToSpawnProcess_live 0
           (mkCommandRunner options (spawnedProcessObjects this)
              (initialStdinDataForNextProcess this) true
              (commandString this))).
Qed.

Lemma react_within_ceiling (e : event) (this : CommandRunner) :
  live this <= ceiling -> live (after (react e this)) <= ceiling.
Proof.
  intros Hle. destruct (is_run_event e) eqn:Hrun.
  - destruct e; try discriminate. cbn [react].
    destruct (runCommand_live this) as [->|[Hroom ->]]; unfold ceiling in *;
      lia.
  - destruct (react_callback_live e this Hrun) as [H|(_ & -> & H)];
      unfold ceiling in *; lia.
Qed.

Lemma react_all_within_ceiling (es : list event) :
  forall this,
    live this <= ceiling -> live (fst (react_all es this)) <= ceiling.
Proof.
  induction es as [|e es IH]; intros this Hle; [exact Hle|].
  cbn [react_all].
  pose proof (react_within_ceiling e this Hle) as Hstep.
  destruct (react e this) as [[r this'] out]. unfold after in Hstep.
  cbn [fst snd] in Hstep.
  specialize (IH this' Hstep).
  destruct (react_all es this') as [this'' out']. exact IH.
Qed.

(** C4. The number of live processes never exceeds the ceiling of 2: every
    reaction of the runner ([runCommand], the three callbacks, [kill]) and
    [tryToSpawnProcess] keep it within the ceiling, [spawnProcess] reaches
    at most the ceiling from below it, and so it holds after every sequence
    of reactions of a new runner. *)
Theorem C4_live_processes_within_ceiling :
  ceiling = 2
  /\ (forall e this,
         live this <= ceiling -> live (after (react e this)) <= ceiling)
  /\ (forall i this,
         live this <= ceiling ->
         live (after (tryToSpawnProcess i this)) <= ceiling)
  /\ (forall i this,
         live this < ceiling -> live (after (spawnProcess i this)) <= ceiling)
  /\ (forall cmd es, live (fst (lifetime cmd es)) <= ceiling).
Proof.
  split; [reflexivity|].
  split; [exact react_within_ceiling|].
  split.
  { intros i this Hle.
    destruct (tryToSpawnProcess_live i this) as [->|[Hroom ->]];
      unfold ceiling in *; lia. }
  split.
  { intros i this Hlt. rewrite spawnProcess_eq. unfold live, after in *.
    cbn [fst snd spawnedProcessObjects]. rewrite length_app. cbn.
    unfold ceiling in *. lia. }
  intros cmd es. unfold lifetime. apply react_all_within_ceiling.
  unfold live, ceiling. cbn. lia.
Qed.

(** ** One run *)

Lemma no_handoff_app (out out' : list effect) :
  no_handoff out -> no_handoff out' -> no_handoff (out ++ out').
Proof.
  unfold no_handoff. intros H H'. now rewrite existsb_app, H, H'.
Qed.

Lemma started_app (out out' : list effect) :
  started (out ++ out') = started out ++ started out'.
Proof. unfold started. apply flat_map_app. Qed.

Lemma started_terminate (l : list Worker) :
  started (map worker_terminate l) = [].
Proof. induction l as [|w l IH]; [reflexivity|exact IH]. Qed.

Lemma kill_started (this : CommandRunner) : started (calls (kill this)) = [].
Proof.
  destruct (isRunning this) eqn:Hrun.
  - rewrite (kill_running this Hrun). unfold calls; cbn [snd].
    now rewrite started_app, started_terminate.
  - now rewrite (kill_idle this Hrun).
Qed.

Lemma released_started (w : option Worker) :
  started match w with Some w => [worker_terminate w] | None => [] end = [].
Proof. now destruct w. Qed.

Lemma react_no_handoff (e : event) (this : CommandRunner) :
  live this <= 1 -> no_handoff (calls (react e this)).
Proof.
  intros Hone. destruct e as [|i data|i w|i error|]; cbn [react].
  - rewrite runCommand_eq.
    destruct (parse (commandString this)) as [commandAst|c]; [|reflexivity].
    destruct (try_block commandAst) as [options|c]; [|reflexivity].
    apply tryToSpawnProcess_no_handoff.
  - rewrite processDataCallback_eq.
    destruct (before_last i this); [|reflexivity].
    replace (1 <? List.length (spawnedProcessObjects this))%nat with false;
      [reflexivity|].
    symmetry. apply Nat.ltb_ge. exact Hone.
  - rewrite processEndCallback_eq. cbv zeta.
    destruct (before_last i this).
    + pose proof (tryToSpawnProcess_no_handoff (i + 1)
                    (with_spawned this (tl (spawnedProcessObjects this))))
        as Hspawn.
      destruct (tryToSpawnProcess (i + 1) _) as [[r s] out].
      unfold calls in *. cbn [snd] in *.
      apply no_handoff_app; [now destruct w|exact Hspawn].
    + unfold calls. cbn [snd]. now destruct w.
  - rewrite processErrorCallback_eq.
    destruct (nth_error _ i); [|reflexivity].
    unfold calls at 1. cbn [snd].
    apply no_handoff_app; [reflexivity|].
    apply no_handoff_app; [apply kill_no_handoff|reflexivity].
  - apply kill_no_handoff.
Qed.

(** The only reaction, after [runCommand], that starts a process is the end
    of a stage before the last: it starts the next stage, once the ended
    one is removed. *)
Lemma react_callback_started (e : event) (this : CommandRunner) :
  is_run_event e = false ->
  started (calls (react e this)) = []
  \/ exists i w,
       e = end_event i w
       /\ let this' := with_spawned this (tl (spawnedProcessObjects this)) in
          started (calls (react e this)) = [service_process (i + 1) this']
          /\ spawnedProcessObjects (after (react e this)) =
             tl (spawnedProcessObjects this)
             ++ [mkSpawned (service_process (i + 1) this') None].
Proof.
  destruct e as [|i data|i w|i error|]; cbn [is_run_event react];
    intros Hrun; try discriminate.
  - left. rewrite processDataCallback_eq.
    destruct (before_last i this); [|reflexivity].
    destruct (1 <? _)%nat; [|reflexivity].
    destruct (nth_error _ 1); reflexivity.
  - rewrite processEndCallback_eq. cbv zeta.
    destruct (before_last i this).
    + rewrite tryToSpawnProcess_eq.
      destruct (_ && _).
      * right. exists i, w. split; [reflexivity|].
        rewrite spawnProcess_eq. unfold calls, after. cbn [fst snd].
        rewrite started_app, released_started. split; reflexivity.
      * left. unfold calls. cbn [snd].
        now rewrite started_app, released_started.
    + left. unfold calls. cbn [snd].
      now rewrite started_app, released_started.
  - left. rewrite processErrorCallback_eq.
    destruct (nth_error _ i); [|reflexivity].
    unfold calls at 1. cbn [snd].
    now rewrite !started_app, kill_started.
  - left. apply kill_started.
Qed.

Lemma react_callback_one_live (e : event) (this : CommandRunner) :
  is_run_event e = false ->
  live this <= 1 -> live (after (react e this)) <= 1.
Proof.
  intros Hrun Hone.
  destruct (react_callback_live e this Hrun) as [H|(_ & -> & _)]; lia.
Qed.

Lemma callbacks_one_live (es : list event) :
  forall this,
    forallb (fun e => negb (is_run_event e)) es = true ->
    live this <= 1 ->
    live (fst (react_all es this)) <= 1
    /\ no_handoff (snd (react_all es this)).
Proof.
  induction es as [|e es IH]; intros this Hes Hone.
  - split; [exact Hone|reflexivity].
  - cbn [forallb] in Hes. apply andb_prop in Hes as [He Hes].
    apply negb_true_iff in He.
    cbn [react_all].
    pose proof (react_callback_one_live e this He Hone) as Hstep.
    pose proof (react_no_handoff e this Hone) as Hquiet.
    destruct (react e this) as [[r this'] out].
    unfold after, calls in *. cbn [fst snd] in *.
    destruct (IH this' Hes Hstep) as [Hlive Hout].
    destruct (react_all es this') as [this'' out']. cbn [fst snd] in *.
    split; [exact Hlive|now apply no_handoff_app].
Qed.

Lemma runCommand_new_one_live (cmd : string) :
  live (after (runCommand (constructor cmd))) <= 1.
Proof.
  destruct (runCommand_live (constructor cmd)) as [->|[_ ->]];
    unfold live; cbn; lia.
Qed.

(** C9. In a run (the command started once on a new runner, then any
    callbacks and kills) at most one process is live at every moment and no
    chunk is ever handed to a live process.  From there, a further reaction
    keeps both facts; it starts a process only as the end of a stage [i],
    and then the process of stage [i + 1] is the only live one; and a chunk
    of a stage before the last is appended to the pending data. *)
Theorem C9_one_live_process_and_no_streaming_handoff
  (cmd : string) (es : list event) :
  forallb (fun e => negb (is_run_event e)) es = true ->
  let this := fst (session cmd es) in
  live this <= 1
  /\ no_handoff (snd (session cmd es))
  /\ (forall e,
         is_run_event e = false ->
         live (after (react e this)) <= 1
         /\ no_handoff (calls (react e this))
         /\ forall p,
              In p (started (calls (react e this))) ->
              exists i w,
                e = end_event i w
                /\ process_index p = i + 1
                /\ spawnedProcessObjects (after (react e this))
                   = [mkSpawned p None])
  /\ (forall i data,
         i + 1 < List.length (commandOptionsForProcessesToRun this) ->
         react (data_event i data) this =
         (normal tt,
          with_pending this (initialStdinDataForNextProcess this ++ data),
          [])).
Proof.
  intros Hes this.
  assert (Hsession : live this <= 1 /\ no_handoff (snd (session cmd es))).
  { unfold this, session, lifetime. cbn [react_all react].
    pose proof (runCommand_new_one_live cmd) as Hfirst.
    pose proof (react_no_handoff run_event (constructor cmd)) as Hquiet.
    cbn [react] in Hquiet.
    destruct (runCommand (constructor cmd)) as [[r this0] out].
    unfold after, calls in *. cbn [fst snd] in *.
    destruct (callbacks_one_live es this0 Hes Hfirst) as [Hlive Hout].
    destruct (react_all es this0) as [this1 out1]. cbn [fst snd] in *.
    split; [exact Hlive|].
    apply no_handoff_app; [apply Hquiet; cbn; lia|exact Hout]. }
  destruct Hsession as [Hone Hquiet].
  split; [exact Hone|]. split; [exact Hquiet|]. split.
  - intros e He.
    split; [now apply react_callback_one_live|].
    split; [now apply react_no_handoff|].
    intros p Hp.
    destruct (react_callback_started e this He) as [Hnone|(i & w & -> & H)].
    + rewrite Hnone in Hp. destruct Hp.
    + cbv zeta in H. destruct H as [Hstart Hlive].
      rewrite Hstart in Hp. destruct Hp as [<-|[]].
      exists i, w. split; [reflexivity|]. split; [reflexivity|].
      rewrite Hlive. unfold live in Hone.
      destruct (spawnedProcessObjects this) as [|o [|o' l]];
        [reflexivity|reflexivity|cbn in Hone; lia].
  - intros i data Hearly. cbn [react].
    rewrite processDataCallback_eq.
    apply before_last_true in Hearly. rewrite Hearly.
    replace (1 <? List.length (spawnedProcessObjects this))%nat with false;
      [reflexivity|].
    symmetry. apply Nat.ltb_ge. exact Hone.
Qed.

(** ** The pending data of the next stage *)

Lemma with_pending_same (this : CommandRunner) :
  with_pending this (initialStdinDataForNextProcess this) = this.
Proof. now destruct this. Qed.

Lemma data_chunks_are_buffered (i : nat) (chunks : list (list byte)) :
  forall this,
    before_last i this = true ->
    live this <= 1 ->
    react_all (map (data_event i) chunks) this =
    (with_pending this (initialStdinDataForNextProcess this ++ List.concat chunks),
     []).
Proof.
  induction chunks as [|chunk chunks IH]; intros this Hearly Hone.
  - cbn. now rewrite app_nil_r, with_pending_same.
  - cbn [map react_all react List.concat].
    rewrite processDataCallback_eq, Hearly.
    replace (1 <? List.length (spawnedProcessObjects this))%nat with false
      by (symmetry; apply Nat.ltb_ge; exact Hone).
    rewrite (IH (with_pending this
                   (initialStdinDataForNextProcess this ++ chunk)))
      by assumption.
    unfold with_pending.
    cbn [commandOptionsForProcessesToRun spawnedProcessObjects
         initialStdinDataForNextProcess isRunning commandString app].
    now rewrite app_assoc.
Qed.

(** C6. While stage [i + 1] is not spawned, the chunks of stage [i] are
    appended to the pending data in the order they come.  When stage [i]
    ends, stage [i + 1] is spawned with all of it as its standard input (no
    input at all when nothing came), and the pending data is empty from
    then on. *)
Theorem C6_pending_data_is_delivered_in_order_and_cleared
  (i : nat) (chunks : list (list byte)) (this : CommandRunner) :
  i + 1 < List.length (commandOptionsForProcessesToRun this) ->
  live this <= 1 ->
  let accumulated := initialStdinDataForNextProcess this ++ List.concat chunks in
  let buffered := react_all (map (data_event i) chunks) this in
  buffered = (with_pending this accumulated, [])
  /\ forall w,
       let r := processEndCallback i w (fst buffered) in
       exists next,
         spawnedProcessObjects (after r) = [mkSpawned next None]
         /\ started (calls r) = [next]
         /\ process_index next = i + 1
         /\ process_options next =
            nth_error (commandOptionsForProcessesToRun this) (i + 1)
         /\ process_stdin next =
            match accumulated with
            | [] => None
            | _ :: _ => Some accumulated
            end
         /\ initialStdinDataForNextProcess (after r) = [].
Proof.
  intros Hnext Hone accumulated buffered.
  assert (Hearly : before_last i this = true) by now apply before_last_true.
  assert (Hbuf : buffered = (with_pending this accumulated, []))
    by (apply data_chunks_are_buffered; assumption).
  split; [exact Hbuf|].
  intros w. rewrite Hbuf. cbv zeta. cbn [fst].
  set (this1 := with_pending this accumulated).
  rewrite processEndCallback_eq. cbv zeta.
  change (before_last i this1) with (before_last i this). rewrite Hearly.
  rewrite tryToSpawnProcess_eq.
  assert (Hroom :
    (List.length (spawnedProcessObjects
                    (with_spawned this1 (tl (spawnedProcessObjects this1))))
     <? 2)%nat = true).
  { apply Nat.ltb_lt. unfold live in Hone. cbn.
    destruct (spawnedProcessObjects this) as [|o l]; cbn in *; lia. }
  rewrite Hroom.
  replace (i + 1 <? _)%nat with true
    by (symmetry; apply Nat.ltb_lt; exact Hnext).
  cbn [andb]. rewrite spawnProcess_eq.
  eexists. unfold after, calls. cbn [fst snd].
  cbn [spawnedProcessObjects initialStdinDataForNextProcess].
  split.
  { unfold this1, with_spawned, with_pending. cbn [spawnedProcessObjects].
    unfold live in Hone.
    destruct (spawnedProcessObjects this) as [|o [|o' l]];
      [reflexivity|reflexivity|cbn in Hone; lia]. }
  split; [now rewrite started_app, released_started|].
  split; [reflexivity|]. split; [reflexivity|].
  split; [|reflexivity].
  unfold service_process, stdin_argument. cbn.
  now destruct accumulated.
Qed.

End RunnerProperties.

(** * The runner on the sample host *)

(** C1. The command [a] is started and its only stage reports an error:
    the diagnostic is written once and the completion callback is called
    twice, by [kill] and again by [processErrorCallback] after it. *)
Theorem C1_runtime_error_calls_completion_twice :
  let h := Sample.host (normal [pipeline_ast Sample.stage_a []]) in
  let out := snd (@session h "a" [error_event 0 "boom"]) in
  written out = [program_error_text "a" "boom"]
  /\ completions out = 2.
Proof. split; reflexivity. Qed.

(** The command [nope], whose name the resolver does not know: the failure
    is written as a parse error and the completion callback is called;
    [runCommand] does not throw. *)
Lemma C2_counterexample :
  let h := Sample.host (normal [pipeline_ast Sample.stage_nope []]) in
  let r := @runCommand h (constructor "nope") in
  @getWasmModuleForCommandName h "nope"
    = throw (Error "command not found nope")
  /\ r = (normal tt, constructor "nope",
          [xterm_write (parse_error_text "Error: command not found nope");
           commandEndCallback])
  /\ ~ (exists c, fst (fst r) = throw c)
  /\ written (calls r) <> []
  /\ completions (calls r) <> 0.
Proof.
  cbv zeta. split; [reflexivity|]. split; [reflexivity|].
  split; [|split].
  - intros [c Hc]. vm_compute in Hc. discriminate.
  - vm_compute. discriminate.
  - vm_compute. discriminate.
Qed.

(** [a | nope]: the second name does not resolve. *)
Lemma C2_witness :
  let h := Sample.host
             (normal [pipeline_ast Sample.stage_a [Sample.stage_nope]]) in
  completions (calls (@runCommand h (constructor "a | nope"))) = 1.
Proof.
  intros h.
  destruct (@C2_resolution_failure_is_reported_as_parse_error h
              "a | nope" Sample.stage_a [Sample.stage_nope] Sample.stage_nope
              (Error "command not found nope"))
    as (c' & _ & _ & H & _).
  - reflexivity.
  - simpl. auto.
  - reflexivity.
  - exact H.
Defined.

(** [a; b]: two statements. *)
Lemma C5_witness :
  let statements := [pipeline_ast Sample.stage_a [];
                     pipeline_ast (mkSimple "b" [] []) []] in
  let h := Sample.host (normal statements) in
  @runCommand h (constructor "a; b") =
  (normal tt, constructor "a; b",
   [xterm_write (parse_error_text "Error: Only one command permitted");
    commandEndCallback]).
Proof.
  intros statements h.
  destruct (@C5_parse_failure_is_reported_once h "a; b" statements)
    as (H & _).
  - reflexivity.
  - left. simpl. lia.
  - exact H.
Defined.

(** [a] is started and killed: its one live process holds no worker, so
    that [kill] calls the completion callback and nothing else; no call is
    made on the process, whose later chunk is still written. *)
Lemma C8_counterexample :
  let h := Sample.host (normal [pipeline_ast Sample.stage_a []]) in
  let this := fst (@session h "a" []) in
  isRunning this = true
  /\ live this = 1
  /\ calls (@kill h this) = [commandEndCallback]
  /\ ~ (exists w, In (worker_terminate w) (calls (@kill h this)))
  /\ written
       (calls (@processDataCallback h 0 (Sample.utf8 "late")
                 (after (@kill h this))))
     = ["late"].
Proof.
  cbv zeta. split; [reflexivity|]. split; [reflexivity|].
  split; [reflexivity|]. split; [|reflexivity].
  intros [w Hw]. vm_compute in Hw. destruct Hw as [Hw|[]]. discriminate.
Qed.

(** [kill] on a new runner, and on a running one whose first live process
    holds a worker and whose second holds none. *)
Lemma C8_witness :
  let h := Sample.host (normal [pipeline_ast Sample.stage_a []]) in
  let unit_ := mkProcess (host := h) None 0 None in
  let running :=
    mkCommandRunner (host := h) []
      [mkSpawned unit_ (Some (mkWorker 0)); mkSpawned unit_ None]
      [] true "a" in
  @kill h (constructor "a") = (normal tt, constructor "a", [])
  /\ @kill h running
     = (normal tt, mkCommandRunner [] [] [] false "a",
        [worker_terminate (mkWorker 0); commandEndCallback]).
Proof.
  intros h unit_ running. split.
  - destruct (@C8_kill_is_noop_when_idle_and_unwinds_when_running h
                (constructor "a")) as [H _].
    destruct (H eq_refl) as [H' _]. exact H'.
  - destruct (@C8_kill_is_noop_when_idle_and_unwinds_when_running h
                running) as [_ H].
    destruct (H eq_refl) as (H' & _). exact H'.
Defined.


(** [a | lolcat]: the first stage writes twice and ends. *)
Lemma C9_witness :
  let h := Sample.host
             (normal [pipeline_ast Sample.stage_a [Sample.stage_lolcat]]) in
  let es := [data_event 0 (Sample.utf8 "hi");
             data_event 0 (Sample.utf8 "yo");
             end_event 0 None] in
  live (fst (@session h "a | lolcat" es)) <= 1
  /\ no_handoff (snd (@session h "a | lolcat" es)).
Proof.
  intros h es.
  destruct (@C9_one_live_process_and_no_streaming_handoff h "a | lolcat" es)
    as (H1 & H2 & _).
  - reflexivity.
  - split; assumption.
Defined.

Lemma C6_witness :
  let h := Sample.host
             (normal [pipeline_ast Sample.stage_a [Sample.stage_lolcat]]) in
  let this := fst (@session h "a | lolcat" []) in
  let chunks := [Sample.utf8 "hi"; Sample.utf8 "yo"] in
  fst (@react_all h (map (data_event 0) chunks) this) =
  with_pending this (Sample.utf8 "hiyo").
Proof.
  intros h this chunks.
  destruct (@C6_pending_data_is_delivered_in_order_and_cleared h 0 chunks this)
    as [H _].
  - vm_compute. lia.
  - vm_compute. lia.
  - cbv zeta in H. rewrite H. reflexivity.
Defined.

(** * Further properties of the builder *)

Section BuilderShape.

Context {host : Host}.

Lemma build_inversion t c l e reds specs :
  getCommandOptionsFromAST (Ast t c l e reds) = normal specs ->
  exists wasmModule rest,
    getWasmModuleForCommandName (value c) = normal wasmModule
    /\ specs = mkCommandOptions (value c :: map value l)
                 (map (fun kv => (fst kv, value (snd kv))) e) wasmModule
               :: rest
    /\ (rest = []
        \/ exists rs target,
             reds = Some (Redirect "pipe" (Some target) :: rs)
             /\ getCommandOptionsFromAST target = normal rest).
Proof.
  destruct reds as [[|[rtype rcommand] rs]|].
  - rewrite build_no_pipe by exact I.
    destruct (getWasmModuleForCommandName (value c)) as [m|];
      cbn [andThen]; [|discriminate].
    intros [= <-]. exists m, []. auto.
  - destruct (String.eqb rtype "pipe") eqn:Hpipe.
    + apply String.eqb_eq in Hpipe. subst rtype.
      destruct rcommand as [target|].
      * rewrite build_pipe.
        destruct (getCommandOptionsFromAST target) as [inner|] eqn:Hinner;
          cbn [andThen]; [|discriminate].
        destruct (getWasmModuleForCommandName (value c)) as [m|];
          cbn [andThen]; [|discriminate].
        intros [= <-]. exists m, inner. split; [reflexivity|].
        split; [reflexivity|]. right. eauto.
      * cbn. discriminate.
    + rewrite build_no_pipe by exact Hpipe.
      destruct (getWasmModuleForCommandName (value c)) as [m|];
        cbn [andThen]; [|discriminate].
      intros [= <-]. exists m, []. auto.
  - rewrite build_no_pipe by exact I.
    destruct (getWasmModuleForCommandName (value c)) as [m|];
      cbn [andThen]; [|discriminate].
    intros [= <-]. exists m, []. auto.
Qed.

Lemma build_cases t c l e reds specs :
  getCommandOptionsFromAST (Ast t c l e reds) = normal specs ->
  exists wasmModule rest,
    getWasmModuleForCommandName (value c) = normal wasmModule
    /\ specs = mkCommandOptions (value c :: map value l)
                 (map (fun kv => (fst kv, value (snd kv))) e) wasmModule
               :: rest
    /\ match reds with
       | Some (Redirect rtype (Some target) :: _) =>
           if String.eqb rtype "pipe"
           then getCommandOptionsFromAST target = normal rest
           else rest = []
       | _ => rest = []
       end.
Proof.
  intros Hbuild.
  destruct (build_inversion t c l e reds specs Hbuild)
    as (m & rest & Hm & -> & _).
  exists m, rest. split; [exact Hm|]. split; [reflexivity|].
  cbn in Hbuild. rewrite Hm in Hbuild.
  destruct reds as [[|[rtype [target|]] rs]|]; cbn in Hbuild.
  - now injection Hbuild.
  - destruct (String.eqb rtype "pipe").
    + destruct (getCommandOptionsFromAST target) as [inner|];
        cbn in Hbuild; [|discriminate].
      now injection Hbuild as <-.
    + now injection Hbuild.
  - destruct (String.eqb rtype "pipe"); [discriminate|].
    now injection Hbuild.
  - now injection Hbuild.
Qed.

Lemma build_follows_pipe_chain_upto (n : nat) :
  forall a specs,
    List.length specs <= n ->
    getCommandOptionsFromAST a = normal specs ->
    Forall2
      (fun node options =>
         args options = value (ast_command node) :: map value (ast_args node)
         /\ env options
            = map (fun kv => (fst kv, value (snd kv))) (ast_env node)
         /\ getWasmModuleForCommandName (value (ast_command node))
            = normal (module options))
      (pipe_chain a) specs.
Proof.
  induction n as [|n IH]; intros [t c l e reds] specs Hlen Hbuild;
    destruct (build_cases t c l e reds specs Hbuild)
      as (m & rest & Hm & -> & Hrest).
  - cbn in Hlen. lia.
  - cbn [pipe_chain]. constructor.
    + cbn. auto.
    + destruct reds as [[|[rtype [target|]] rs]|];
        try (subst rest; constructor).
      destruct (String.eqb rtype "pipe"); [|subst rest; constructor].
      apply IH; [cbn in Hlen; lia|exact Hrest].
Qed.

(** X1. Whatever the tree (other redirects, nodes of any type), when the
    builder succeeds its result lists the stages of the chain as written,
    one options for each node met by following the first redirect while it
    is a pipe, in that order: its arguments are the value of the command
    word of that node followed by the values of its argument words, its
    environment the values of its assignments, and its module what the
    resolver answered for that command word. *)
Theorem build_result_lists_the_pipe_chain_in_order
  (a : ast) (specs : list CommandOptions) :
  getCommandOptionsFromAST a = normal specs ->
  Forall2
    (fun node options =>
       args options = value (ast_command node) :: map value (ast_args node)
       /\ env options
          = map (fun kv => (fst kv, value (snd kv))) (ast_env node)
       /\ getWasmModuleForCommandName (value (ast_command node))
          = normal (module options))
    (pipe_chain a) specs
  /\ map args specs
     = map (fun node => value (ast_command node) :: map value (ast_args node))
           (pipe_chain a).
Proof.
  intros Hbuild.
  pose proof (build_follows_pipe_chain_upto (List.length specs) a specs
                (Nat.le_refl _) Hbuild) as Hchain.
  split; [exact Hchain|].
  clear Hbuild.
  induction Hchain as [|node options chain specs' (Hargs & _) _ IH];
    [reflexivity|].
  cbn [map]. now rewrite Hargs, IH.
Qed.

(** X2. When several names of a chain do not resolve, the failure of the
    builder is the one of the last of them as written: the stages to the
    right are built first, and the names to the left of a failing stage are
    not decisive. *)
Theorem build_fails_with_the_rightmost_unresolved_name
  (modules : string -> WasmModule) (c : thrown)
  (failing : simple_command) (right : list simple_command) :
  (forall stage, In stage right ->
     getWasmModuleForCommandName (name stage) = normal (modules (name stage))) ->
  getWasmModuleForCommandName (name failing) = throw c ->
  forall left first rest,
    first :: rest = left ++ failing :: right ->
    getCommandOptionsFromAST (pipeline_ast first rest) = throw c.
Proof.
  intros Hright Hfail.
  induction left as [|stage left IH]; intros first rest Hsplit.
  - cbn [app] in Hsplit. injection Hsplit as -> ->.
    destruct right as [|next right'].
    + cbn. rewrite Hfail. reflexivity.
    + cbn [pipeline_ast]. rewrite build_pipe.
      rewrite (build_pipeline modules right' next Hright).
      cbn [andThen value]. rewrite Hfail. reflexivity.
  - cbn [app] in Hsplit. injection Hsplit as -> ->.
    destruct (left ++ failing :: right) as [|next rest'] eqn:Htail.
    + destruct left; discriminate.
    + cbn [pipeline_ast]. rewrite build_pipe.
      rewrite (IH next rest' eq_refl). reflexivity.
Qed.

End BuilderShape.

(** [a | lolcat hi], the second node holding a file redirect as well. *)
Lemma build_result_lists_the_pipe_chain_witness :
  let second := with_redirects
                  (pipeline_ast (mkSimple "lolcat" ["hi"] []) [])
                  (Some [Redirect "redirectFd" None]) in
  let tree := with_redirects (pipeline_ast Sample.stage_a [])
                (Some [Redirect "pipe" (Some second)]) in
  exists specs,
    @getCommandOptionsFromAST (Sample.host (throw (Error ""))) tree
      = normal specs
    /\ map args specs = [["a"]; ["lolcat"; "hi"]].
Proof.
  intros second tree.
  eexists. split; [reflexivity|].
  destruct (@build_result_lists_the_pipe_chain_in_order
              (Sample.host (throw (Error ""))) tree _ eq_refl) as [_ H].
  rewrite H. reflexivity.
Defined.

(** [nope | a | nope2 | lolcat]: the failure is the one of [nope2]. *)
Lemma build_fails_with_the_rightmost_witness :
  @getCommandOptionsFromAST (Sample.host (throw (Error "")))
    (pipeline_ast Sample.stage_nope
       [Sample.stage_a; mkSimple "nope2" [] []; Sample.stage_lolcat])
  = throw (Error "command not found nope2").
Proof.
  apply (@build_fails_with_the_rightmost_unresolved_name
           (Sample.host (throw (Error "")))
           (fun n => match Sample.lookup Sample.commands n with
                     | Some url => url
                     | None => ""
                     end)
           (Error "command not found nope2")
           (mkSimple "nope2" [] []) [Sample.stage_lolcat])
    with (left := [Sample.stage_nope; Sample.stage_a]).
  - intros stage [<-|[]]. reflexivity.
  - reflexivity.
  - reflexivity.
Defined.

(** * Further properties of the orchestrator *)

Section RunnerBehaviour.

Context {host : Host}.

(** ** Starting a run *)

Lemma react_all_app (es es' : list event) :
  forall this,
    react_all (es ++ es') this =
    match react_all es this with
    | (this', out) =>
        match react_all es' this' with
        | (this'', out') => (this'', out ++ out')
        end
    end.
Proof.
  induction es as [|e es IH]; intros this.
  - cbn. now destruct (react_all es' this).
  - cbn [app react_all]. destruct (react e this) as [[r this1] out1].
    rewrite IH. destruct (react_all es this1) as [this2 out2].
    destruct (react_all es' this2) as [this3 out3].
    now rewrite app_assoc.
Qed.

Lemma kills_of_idle (n : nat) (this : CommandRunner) :
  isRunning this = false ->
  react_all (repeat kill_event n) this = (this, []).
Proof.
  intros Hidle. induction n as [|n IH]; [reflexivity|].
  cbn [repeat react_all react]. rewrite (kill_idle this Hidle).
  now rewrite IH.
Qed.

(** X3. A value thrown by the parser is not caught: [runCommand] on a new
    runner throws it on, writes no diagnostic and does not call the
    completion callback; the runner is left not running, so that no later
    [kill] calls the callback either. *)
Theorem parser_failure_is_rethrown_without_completion
  (cmd : string) (c : thrown) (n : nat) :
  parse cmd = throw c ->
  runCommand (constructor cmd) = (throw c, constructor cmd, [])
  /\ session cmd (repeat kill_event n) = (constructor cmd, []).
Proof.
  intros Hparse.
  assert (Hrun : runCommand (constructor cmd)
                 = (throw c, constructor cmd, [])).
  { rewrite runCommand_eq. cbn [constructor commandString].
    now rewrite Hparse. }
  split; [exact Hrun|].
  unfold session, lifetime. cbn [react_all react]. rewrite Hrun.
  now rewrite kills_of_idle.
Qed.

(** X4. An empty parse result (no statement at all) is reported like a
    parse failure: one diagnostic of the parse-error form, one call of the
    completion callback, nothing spawned, the runner unchanged. *)
Theorem empty_parse_result_is_reported_as_parse_error (cmd : string) :
  parse cmd = normal [] ->
  exists message,
    runCommand (constructor cmd) =
    (normal tt, constructor cmd,
     [xterm_write (parse_error_text message); commandEndCallback]).
Proof.
  intros Hparse. exists (toString (TypeErrorUndefined "type")).
  apply (runCommand_try_block_failure cmd [] (TypeErrorUndefined "type")
           Hparse).
  reflexivity.
Qed.

Lemma runCommand_started (cmd : string) (a : ast)
  (options : list CommandOptions) :
  parse cmd = normal [a] ->
  ast_type a = "command" ->
  getCommandOptionsFromAST a = normal options ->
  forall this,
    commandString this = cmd ->
    runCommand this =
    tryToSpawnProcess 0
      (mkCommandRunner options (spawnedProcessObjects this)
         (initialStdinDataForNextProcess this) true cmd).
Proof.
  intros Hparse Htype Hbuild this <-.
  rewrite runCommand_eq, Hparse.
  unfold try_block. cbn [List.length Nat.ltb Nat.leb nth_error].
  rewrite Htype. cbn [String.eqb Ascii.eqb Bool.eqb negb].
  replace (String.eqb "command" "command") with true by reflexivity.
  cbn [negb]. now rewrite Hbuild.
Qed.

Lemma build_nonempty (a : ast) (options : list CommandOptions) :
  getCommandOptionsFromAST a = normal options ->
  exists first others, options = first :: others.
Proof.
  destruct a as [t c l e reds]. intros Hbuild.
  destruct (build_inversion t c l e reds options Hbuild)
    as (m & rest & _ & -> & _).
  eauto.
Qed.

Lemma runCommand_new_started (cmd : string) (a : ast)
  (options : list CommandOptions) :
  parse cmd = normal [a] ->
  ast_type a = "command" ->
  getCommandOptionsFromAST a = normal options ->
  runCommand (constructor cmd) =
  (normal tt,
   mkCommandRunner options
     [mkSpawned (mkProcess (nth_error options 0) 0 None) None] [] true cmd,
   [process_start (mkProcess (nth_error options 0) 0 None)]).
Proof.
  intros Hparse Htype Hbuild.
  rewrite (runCommand_started cmd a options Hparse Htype Hbuild
             (constructor cmd) eq_refl).
  destruct (build_nonempty a options Hbuild) as (first & others & ->).
  rewrite tryToSpawnProcess_eq, spawnProcess_eq. reflexivity.
Qed.

(** X5. When the command line is one command whose chain builds, a new
    runner keeps the built options, becomes running and starts exactly the
    first stage, with no standard input; nothing is written and the
    completion callback is not called. *)
Theorem successful_runCommand_starts_the_first_stage_only
  (cmd : string) (a : ast) (options : list CommandOptions) :
  parse cmd = normal [a] ->
  ast_type a = "command" ->
  getCommandOptionsFromAST a = normal options ->
  exists first others,
    options = first :: others
    /\ let r := runCommand (constructor cmd) in
       let stage0 := mkProcess (Some first) 0 None in
       r = (normal tt,
            mkCommandRunner options [mkSpawned stage0 None] [] true cmd,
            [process_start stage0])
       /\ written (calls r) = []
       /\ completions (calls r) = 0.
Proof.
  intros Hparse Htype Hbuild.
  destruct (build_nonempty a options Hbuild) as (first & others & Hoptions).
  exists first, others. split; [exact Hoptions|]. cbv zeta.
  rewrite (runCommand_new_started cmd a options Hparse Htype Hbuild).
  subst options. repeat split.
Qed.

(** ** A run in which every stage behaves *)

Lemma last_stage_chunks_are_written (i : nat) (chunks : list (list byte))
  (this : CommandRunner) :
  before_last i this = false ->
  react_all (map (data_event i) chunks) this =
  (this,
   map (fun chunk => xterm_write (replace_LF_CRLF (TextDecoder.decode chunk)))
       chunks).
Proof.
  intros Hlast. induction chunks as [|chunk chunks IH]; [reflexivity|].
  cbn [map react_all react]. rewrite processDataCallback_eq, Hlast.
  now rewrite IH.
Qed.

Lemma stdin_argument_of (this : CommandRunner) :
  stdin_argument this = stdin_of (initialStdinDataForNextProcess this).
Proof.
  unfold stdin_argument, stdin_of.
  now destruct (initialStdinDataForNextProcess this).
Qed.

Lemma pipeline_from_stage (options : list CommandOptions) (cmd : string) :
  forall chunks_of_stages i stdin,
    chunks_of_stages <> [] ->
    i + List.length chunks_of_stages = List.length options ->
    react_all (pipeline_events i chunks_of_stages)
      (mkCommandRunner options
         [mkSpawned (mkProcess (nth_error options i) i stdin) None]
         [] true cmd)
    = (mkCommandRunner options [] [] false cmd,
       pipeline_calls options i chunks_of_stages).
Proof.
  induction chunks_of_stages as [|chunks later IH]; intros i stdin Hne Hlen;
    [contradiction|].
  cbn [pipeline_events]. rewrite react_all_app.
  set (this := mkCommandRunner options
                 [mkSpawned (mkProcess (nth_error options i) i stdin) None]
                 [] true cmd).
  destruct later as [|chunks' later'].
  - assert (Hlast : before_last i this = false)
      by (apply before_last_false; cbn in *; lia).
    rewrite (last_stage_chunks_are_written i chunks this Hlast).
    cbn [pipeline_events react_all react].
    rewrite processEndCallback_eq. cbv zeta. rewrite Hlast.
    cbn [pipeline_calls]. reflexivity.
  - assert (Hearly : before_last i this = true)
      by (apply before_last_true; cbn in *; lia).
    rewrite (data_chunks_are_buffered i chunks this Hearly)
      by (unfold live; cbn; lia).
    cbn [react_all react].
    rewrite processEndCallback_eq. cbv zeta.
    change (before_last i (with_pending this
             (initialStdinDataForNextProcess this ++ List.concat chunks)))
      with (before_last i this).
    rewrite Hearly, tryToSpawnProcess_eq.
    set (this' := with_spawned _ _).
    assert (Hroom :
      (List.length (spawnedProcessObjects this') <? 2)%nat = true)
      by reflexivity.
    assert (Hin :
      (i + 1 <? List.length (commandOptionsForProcessesToRun this'))%nat
      = true) by (apply Nat.ltb_lt; cbn in *; lia).
    rewrite Hroom, Hin. cbn [andb].
    rewrite spawnProcess_eq.
    unfold service_process. rewrite stdin_argument_of.
    unfold this', this, with_spawned, with_pending.
    cbn [spawnedProcessObjects commandOptionsForProcessesToRun
         initialStdinDataForNextProcess isRunning commandString app tl].
    rewrite Nat.add_1_r.
    rewrite (IH (S i) (stdin_of (List.concat chunks)))
      by (try discriminate; cbn in *; lia).
    reflexivity.
Qed.

Lemma writes_completions {A : Type} (text : A -> string) (l : list A) :
  completions (map (fun x => xterm_write (text x)) l) = 0.
Proof. induction l as [|x l IH]; [reflexivity|exact IH]. Qed.

Lemma writes_started {A : Type} (text : A -> string) (l : list A) :
  started (map (fun x => xterm_write (text x)) l) = [].
Proof. induction l as [|x l IH]; [reflexivity|exact IH]. Qed.

Lemma writes_written {A : Type} (text : A -> string) (l : list A) :
  written (map (fun x => xterm_write (text x)) l) = map text l.
Proof.
  induction l as [|x l IH]; [reflexivity|].
  cbn [map]. unfold written in *. cbn [flat_map app]. now rewrite IH.
Qed.

Lemma pipeline_calls_completions (options : list CommandOptions) :
  forall chunks_of_stages i,
    chunks_of_stages <> [] ->
    completions (pipeline_calls options i chunks_of_stages) = 1.
Proof.
  induction chunks_of_stages as [|chunks later IH]; intros i Hne;
    [contradiction|].
  destruct later as [|chunks' later'].
  - cbn [pipeline_calls]. rewrite completions_app, writes_completions.
    reflexivity.
  - change (completions (pipeline_calls options (S i) (chunks' :: later'))
            = 1).
    apply IH. discriminate.
Qed.

Lemma pipeline_calls_started (options : list CommandOptions) :
  forall chunks_of_stages i,
    map process_index (started (pipeline_calls options i chunks_of_stages))
    = seq (S i) (pred (List.length chunks_of_stages)).
Proof.
  induction chunks_of_stages as [|chunks later IH]; intros i;
    [reflexivity|].
  destruct later as [|chunks' later'].
  - cbn [pipeline_calls List.length pred seq].
    rewrite started_app, writes_started. reflexivity.
  - change (S i :: map process_index
              (started (pipeline_calls options (S i) (chunks' :: later')))
            = seq (S i) (S (List.length later'))).
    rewrite IH. reflexivity.
Qed.

Lemma pipeline_calls_written (options : list CommandOptions) :
  forall chunks_of_stages i,
    written (pipeline_calls options i chunks_of_stages)
    = map (fun chunk => replace_LF_CRLF (TextDecoder.decode chunk))
          (last chunks_of_stages []).
Proof.
  induction chunks_of_stages as [|chunks later IH]; intros i;
    [reflexivity|].
  destruct later as [|chunks' later'].
  - cbn [pipeline_calls last].
    assert (Happ : forall out out',
               written (out ++ out') = written out ++ written out')
      by (intros; apply flat_map_app).
    rewrite Happ, writes_written. cbn. now rewrite app_nil_r.
  - change (written (pipeline_calls options (S i) (chunks' :: later'))
            = map (fun chunk => replace_LF_CRLF (TextDecoder.decode chunk))
                  (last (chunks' :: later') [])).
    apply IH.
Qed.

(** X6. A whole run.  The command line is one command whose chain builds
    to [n] options, and each stage in turn gives its chunks and ends.  Then
    the stages are started one after the other in ascending order, each
    once and each with the concatenated chunks of the stage before it as
    its standard input (none for the first stage, and none when the stage
    before gave nothing); the chunks of the last stage, and only they, are
    written to the terminal; the completion callback is called once, at the
    very end; and the runner is left not running, with no live process and
    no pending data, still holding the options. *)
Theorem pipeline_runs_every_stage_in_order_and_completes_once
  (cmd : string) (a : ast) (options : list CommandOptions)
  (chunks_of_stages : list (list (list byte))) :
  parse cmd = normal [a] ->
  ast_type a = "command" ->
  getCommandOptionsFromAST a = normal options ->
  List.length chunks_of_stages = List.length options ->
  let out :=
    process_start (mkProcess (nth_error options 0) 0 None)
    :: pipeline_calls options 0 chunks_of_stages in
  session cmd (pipeline_events 0 chunks_of_stages)
    = (mkCommandRunner options [] [] false cmd, out)
  /\ map process_index (started out) = seq 0 (List.length options)
  /\ written out
     = map (fun chunk => replace_LF_CRLF (TextDecoder.decode chunk))
           (last chunks_of_stages [])
  /\ completions out = 1
  /\ last out commandEndCallback = commandEndCallback.
Proof.
  intros Hparse Htype Hbuild Hlen out.
  destruct (build_nonempty a options Hbuild) as (first & others & Hoptions).
  assert (Hne : chunks_of_stages <> []).
  { intros ->. subst options. discriminate. }
  split; [|split; [|split; [|split]]].
  - unfold session, lifetime. cbn [react_all react].
    rewrite (runCommand_new_started cmd a options Hparse Htype Hbuild).
    rewrite (pipeline_from_stage options cmd chunks_of_stages 0 None Hne)
      by (cbn; lia).
    reflexivity.
  - unfold out. cbn [started flat_map app map process_index].
    fold (started (pipeline_calls options 0 chunks_of_stages)).
    rewrite pipeline_calls_started, <- Hlen.
    destruct chunks_of_stages; [contradiction|reflexivity].
  - unfold out. cbn [written flat_map app].
    fold (written (pipeline_calls options 0 chunks_of_stages)).
    apply pipeline_calls_written.
  - unfold out.
    change (completions ([process_start (mkProcess (nth_error options 0) 0 None)]
                         ++ pipeline_calls options 0 chunks_of_stages) = 1).
    rewrite completions_app, pipeline_calls_completions by exact Hne.
    reflexivity.
  - unfold out. clear out Hlen.
    generalize 0 at 3. generalize (process_start (mkProcess (nth_error options 0) 0 None)).
    induction chunks_of_stages as [|chunks later IH]; intros e i;
      [contradiction|].
    destruct later as [|chunks' later'].
    + cbn [pipeline_calls].
      change (last ((e :: map (fun chunk =>
                 xterm_write (replace_LF_CRLF (TextDecoder.decode chunk)))
                 chunks) ++ [commandEndCallback]) commandEndCallback
              = commandEndCallback).
      apply last_last.
    + change (last (e :: process_start
                 (mkProcess (nth_error options (S i)) (S i)
                    (stdin_of (List.concat chunks)))
                 :: pipeline_calls options (S i) (chunks' :: later'))
                commandEndCallback = commandEndCallback).
      cbn [last].
      apply (IH ltac:(discriminate)).
Qed.

(** ** After [kill] *)

Lemma data_without_options (i : nat) (data : list byte)
  (this : CommandRunner) :
  commandOptionsForProcessesToRun this = [] ->
  processDataCallback i data this =
  (normal tt, this,
   [xterm_write (replace_LF_CRLF (TextDecoder.decode data))]).
Proof.
  intros Hnone. rewrite processDataCallback_eq.
  replace (before_last i this) with false; [reflexivity|].
  symmetry. apply before_last_false. rewrite Hnone. cbn. lia.
Qed.

(** X7. [kill] does not silence a process that goes on: once a running
    runner is killed, a chunk that any stage still gives is decoded and
    written to the terminal, and the end of any stage calls the completion
    callback once more; the runner stays as [kill] left it. *)
Theorem callbacks_after_kill_still_write_and_complete
  (this : CommandRunner) (i : nat) (data : list byte) :
  isRunning this = true ->
  let killed := after (kill this) in
  processDataCallback i data killed =
    (normal tt, killed,
     [xterm_write (replace_LF_CRLF (TextDecoder.decode data))])
  /\ processEndCallback i None killed =
    (normal tt, killed, [commandEndCallback]).
Proof.
  intros Hrun killed. unfold killed. rewrite (kill_running this Hrun).
  unfold after. cbn [fst snd]. split.
  - now apply data_without_options.
  - rewrite processEndCallback_eq. cbv zeta.
    replace (before_last i _) with false; [reflexivity|].
    symmetry. apply before_last_false. cbn. lia.
Qed.

(** X8. [kill] twice is [kill] once: whatever the runner, the second call
    changes nothing and makes no call, so that the two together call the
    completion callback at most once. *)
Theorem kill_is_idempotent (this : CommandRunner) :
  react_all [kill_event; kill_event] this = react_all [kill_event] this
  /\ completions (snd (react_all [kill_event; kill_event] this)) <= 1.
Proof.
  cbn [react_all react].
  destruct (isRunning this) eqn:Hrun.
  - rewrite (kill_running this Hrun).
    rewrite kill_idle by reflexivity.
    split; [reflexivity|]. cbn [snd].
    rewrite !app_nil_r, completions_app, completions_terminate. cbn. lia.
  - rewrite (kill_idle this Hrun), (kill_idle this Hrun).
    split; [reflexivity|]. cbn. lia.
Qed.

(** ** What the callbacks leave alone *)

Lemma processDataCallback_never_starts
  (i : nat) (data : list byte) (this : CommandRunner) :
  exists pending out,
    processDataCallback i data this = (normal tt, with_pending this pending, out)
    /\ started (calls (normal tt, with_pending this pending, out)) = [].
Proof.
  rewrite processDataCallback_eq.
  destruct (before_last i this).
  - destruct (1 <? List.length (spawnedProcessObjects this))%nat eqn:Htwo.
    + apply Nat.ltb_lt in Htwo.
      destruct (nth_error (spawnedProcessObjects this) 1) as [next|] eqn:Hnext.
      * exists (initialStdinDataForNextProcess this),
          [process_receiveStdinChunk (process next) data].
        rewrite with_pending_same. split; reflexivity.
      * apply nth_error_None in Hnext. lia.
    + exists (initialStdinDataForNextProcess this ++ data), [].
      split; reflexivity.
  - exists (initialStdinDataForNextProcess this),
      [xterm_write (replace_LF_CRLF (TextDecoder.decode data))].
    rewrite with_pending_same. split; reflexivity.
Qed.

Lemma processDataCallback_flag_and_completions
  (i : nat) (data : list byte) (this : CommandRunner) :
  isRunning (after (processDataCallback i data this)) = isRunning this
  /\ completions (calls (processDataCallback i data this)) = 0.
Proof.
  rewrite processDataCallback_eq.
  destruct (before_last i this); [|split; reflexivity].
  destruct (1 <? _)%nat; [|split; reflexivity].
  destruct (nth_error _ 1); split; reflexivity.
Qed.

(** X9. The data callback never throws and touches nothing but the pending
    data: the options, the live processes, the running flag and the command
    stay as they were, the pending data is kept or extended by the chunk,
    at most one call is made, no process is started and the completion
    callback is not called. *)
Theorem processDataCallback_only_extends_the_pending_data
  (i : nat) (data : list byte) (this : CommandRunner) :
  exists pending out,
    processDataCallback i data this = (normal tt, with_pending this pending, out)
    /\ (pending = initialStdinDataForNextProcess this
        \/ pending = initialStdinDataForNextProcess this ++ data)
    /\ List.length out <= 1
    /\ started out = []
    /\ completions out = 0.
Proof.
  rewrite processDataCallback_eq.
  destruct (before_last i this).
  - destruct (1 <? List.length (spawnedProcessObjects this))%nat eqn:Htwo.
    + apply Nat.ltb_lt in Htwo.
      destruct (nth_error (spawnedProcessObjects this) 1) as [next|] eqn:Hnext.
      * exists (initialStdinDataForNextProcess this),
          [process_receiveStdinChunk (process next) data].
        rewrite with_pending_same. repeat split; auto.
      * apply nth_error_None in Hnext. lia.
    + exists (initialStdinDataForNextProcess this ++ data), [].
      repeat split; auto.
  - exists (initialStdinDataForNextProcess this),
      [xterm_write (replace_LF_CRLF (TextDecoder.decode data))].
    rewrite with_pending_same. repeat split; auto.
Qed.

(** ** The error callback *)

(** X10. An error of a stage within the options writes exactly one
    diagnostic, [Program <args[0]>: <error>\r\n], and leaves the runner as
    [kill] leaves it: when it was running, with no options, no live process
    and the flag cleared, the worker of every live process that had one
    being terminated. *)
Theorem processErrorCallback_writes_one_diagnostic_and_unwinds
  (i : nat) (error : string) (options : CommandOptions)
  (program : string) (this : CommandRunner) :
  nth_error (commandOptionsForProcessesToRun this) i = Some options ->
  hd_error (args options) = Some program ->
  let r := processErrorCallback i error this in
  fst (fst r) = normal tt
  /\ written (calls r) = [program_error_text program error]
  /\ after r = after (kill this)
  /\ (isRunning this = true ->
      after r = mkCommandRunner [] [] (initialStdinDataForNextProcess this)
                  false (commandString this)
      /\ flat_map (fun e => match e with
                            | worker_terminate w => [w]
                            | _ => []
                            end) (calls r)
         = live_workers (spawnedProcessObjects this)).
Proof.
  intros Hi Hname r. unfold r. rewrite processErrorCallback_eq, Hi.
  assert (Hprogram : program_name options = program).
  { unfold program_name. destruct (args options); [discriminate|].
    now injection Hname. }
  rewrite Hprogram. unfold after, calls. cbn [fst snd].
  split; [reflexivity|].
  assert (Happ : forall out out',
             written (out ++ out') = written out ++ written out')
    by (intros; apply flat_map_app).
  split; [|split; [reflexivity|]].
  - rewrite !Happ.
    assert (Hkill : written (snd (kill this)) = []).
    { destruct (isRunning this) eqn:Hrun.
      - rewrite (kill_running this Hrun). cbn [snd].
        rewrite Happ.
        induction (live_workers (spawnedProcessObjects this)) as [|w l IH];
          [reflexivity|exact IH].
      - now rewrite (kill_idle this Hrun). }
    rewrite Hkill. reflexivity.
  - intros Hrun.
    rewrite (kill_running this Hrun). cbn [fst snd].
    split; [reflexivity|].
    cbn [app flat_map]. rewrite !flat_map_app. cbn [flat_map app].
    rewrite !app_nil_r.
    induction (live_workers (spawnedProcessObjects this)) as [|w l IH];
      [reflexivity|]. cbn. now rewrite IH.
Qed.

(** X11. An error callback for an index outside the options (as after
    [kill], which empties them) throws before anything is done: nothing is
    written, the completion callback is not called and the runner is
    unchanged. *)
Theorem processErrorCallback_outside_the_options_throws
  (i : nat) (error : string) (this : CommandRunner) :
  List.length (commandOptionsForProcessesToRun this) <= i ->
  exists c, processErrorCallback i error this = (throw c, this, []).
Proof.
  intros Hout. rewrite processErrorCallback_eq.
  apply nth_error_None in Hout. rewrite Hout. eauto.
Qed.

(** ** What is started, and as what *)

Lemma tryToSpawnProcess_started_cases (i : nat) (this : CommandRunner) :
  (started (calls (tryToSpawnProcess i this)) = []
   /\ spawnedProcessObjects (after (tryToSpawnProcess i this))
      = spawnedProcessObjects this)
  \/ (i < List.length (commandOptionsForProcessesToRun this)
      /\ started (calls (tryToSpawnProcess i this)) = [service_process i this]
      /\ spawnedProcessObjects (after (tryToSpawnProcess i this))
         = spawnedProcessObjects this
           ++ [mkSpawned (service_process i this) None]).
Proof.
  rewrite tryToSpawnProcess_eq.
  destruct (List.length (spawnedProcessObjects this) <? 2)%nat;
    cbn [andb]; [|left; split; reflexivity].
  destruct (i <? _)%nat eqn:Hin; [|left; split; reflexivity].
  right. apply Nat.ltb_lt in Hin. rewrite spawnProcess_eq.
  split; [exact Hin|]. split; reflexivity.
Qed.

Lemma tryToSpawnProcess_frame (i : nat) (this : CommandRunner) :
  isRunning (after (tryToSpawnProcess i this)) = isRunning this
  /\ commandOptionsForProcessesToRun (after (tryToSpawnProcess i this))
     = commandOptionsForProcessesToRun this
  /\ completions (calls (tryToSpawnProcess i this)) = 0.
Proof.
  rewrite tryToSpawnProcess_eq.
  destruct (_ && _); [rewrite spawnProcess_eq|]; repeat split.
Qed.

Lemma service_process_well_made (i : nat) (this : CommandRunner) :
  i < List.length (commandOptionsForProcessesToRun this) ->
  process_options (service_process i this) <> None
  /\ process_stdin (service_process i this) <> Some [].
Proof.
  intros Hin. unfold service_process. cbn [process_options process_stdin].
  split.
  - now apply nth_error_Some.
  - rewrite stdin_argument_of.
    destruct (initialStdinDataForNextProcess this); cbn; congruence.
Qed.

Lemma react_started_cases (e : event) (this : CommandRunner) :
  started (calls (react e this)) = []
  \/ exists i this',
       i < List.length (commandOptionsForProcessesToRun this')
       /\ started (calls (react e this)) = [service_process i this'].
Proof.
  destruct e as [|i data|i w|i error|]; cbn [react].
  - rewrite runCommand_eq.
    destruct (parse (commandString this)) as [commandAst|c]; [|now left].
    destruct (try_block commandAst) as [options|c]; [|now left].
    match goal with
    | |- context [tryToSpawnProcess 0 ?s] =>
        destruct (tryToSpawnProcess_started_cases 0 s)
          as [[H _]|(Hin & H & _)]; [now left|right; eauto]
    end.
  - left. destruct (processDataCallback_never_starts
                      i data this) as (pending & out & -> & H).
    exact H.
  - rewrite processEndCallback_eq. cbv zeta.
    destruct (before_last i this).
    + set (this' := with_spawned this (tl (spawnedProcessObjects this))).
      destruct (tryToSpawnProcess_started_cases (i + 1) this')
        as [[H _]|(Hin & H & _)];
        destruct (tryToSpawnProcess (i + 1) this') as [[r s] out];
        unfold calls in *; cbn [snd] in *;
        rewrite started_app, released_started, H; [now left|right; eauto].
    + left. unfold calls. cbn [snd].
      now rewrite started_app, released_started.
  - left. rewrite processErrorCallback_eq.
    destruct (nth_error _ i); [|reflexivity].
    unfold calls at 1. cbn [snd].
    now rewrite !started_app, kill_started.
  - left. apply kill_started.
Qed.

(** X12. Whatever happens to a runner (commands started, callbacks and
    kills in any order), every process it starts was made with defined
    options, the index being checked against the options before each
    spawn, and with a standard input that is either absent or not empty. *)
Theorem every_started_process_has_options_and_no_empty_stdin
  (cmd : string) (es : list event) :
  Forall (fun p => process_options p <> None /\ process_stdin p <> Some [])
         (started (snd (lifetime cmd es))).
Proof.
  unfold lifetime. generalize (constructor cmd).
  induction es as [|e es IH]; intros this; [constructor|].
  cbn [react_all].
  pose proof (react_started_cases e this) as Hstep.
  destruct (react e this) as [[r this1] out1].
  unfold calls in Hstep. cbn [snd] in Hstep.
  specialize (IH this1).
  destruct (react_all es this1) as [this2 out2]. cbn [snd] in *.
  rewrite started_app. apply Forall_app. split; [|exact IH].
  destruct Hstep as [->|(i & this' & Hin & ->)]; [constructor|].
  constructor; [|constructor].
  now apply service_process_well_made.
Qed.

Lemma react_keeps_no_worker (e : event) (this : CommandRunner) :
  Forall (fun o => worker o = None) (spawnedProcessObjects this) ->
  Forall (fun o => worker o = None)
         (spawnedProcessObjects (after (react e this))).
Proof.
  intros Hnone.
  assert (Hspawn : forall i this',
    Forall (fun o => worker o = None) (spawnedProcessObjects this') ->
    Forall (fun o => worker o = None)
           (spawnedProcessObjects (after (tryToSpawnProcess i this')))).
  { intros i this' H.
    destruct (tryToSpawnProcess_started_cases i this')
      as [[_ ->]|(_ & _ & ->)]; [exact H|].
    apply Forall_app. split; [exact H|]. now constructor. }
  assert (Hkill :
    Forall (fun o => worker o = None)
           (spawnedProcessObjects (after (kill this)))).
  { destruct (isRunning this) eqn:Hrun.
    - rewrite (kill_running this Hrun). constructor.
    - now rewrite (kill_idle this Hrun). }
  destruct e as [|i data|i w|i error|]; cbn [react].
  - rewrite runCommand_eq.
    destruct (parse (commandString this)) as [commandAst|c]; [|exact Hnone].
    destruct (try_block commandAst) as [options|c]; [|exact Hnone].
    apply Hspawn. exact Hnone.
  - destruct (processDataCallback_never_starts
                i data this) as (pending & out & -> & _).
    exact Hnone.
  - rewrite processEndCallback_eq. cbv zeta.
    assert (Htl : Forall (fun o => worker o = None)
                    (tl (spawnedProcessObjects this)))
      by (destruct Hnone; [constructor|assumption]).
    destruct (before_last i this).
    + specialize (Hspawn (i + 1)
                    (with_spawned this (tl (spawnedProcessObjects this)))
                    Htl).
      destruct (tryToSpawnProcess (i + 1) _) as [[r s0] out].
      exact Hspawn.
    + exact Htl.
  - rewrite processErrorCallback_eq.
    destruct (nth_error _ i); [exact Hkill|exact Hnone].
  - exact Hkill.
Qed.

(** X13. No worker is ever made, whatever capabilities the host offers:
    after any sequence of reactions of a new runner every live process is
    an in-process one, so that [kill] has nothing to terminate and makes no
    call but the one of the completion callback when the runner is
    running. *)
Theorem no_live_process_ever_holds_a_worker (cmd : string) (es : list event) :
  let this := fst (lifetime cmd es) in
  Forall (fun o => worker o = None) (spawnedProcessObjects this)
  /\ calls (kill this)
     = if isRunning this then [commandEndCallback] else [].
Proof.
  cbv zeta.
  assert (Hnone : Forall (fun o => worker o = None)
                    (spawnedProcessObjects (fst (lifetime cmd es)))).
  { unfold lifetime.
    assert (Hgen : forall this,
      Forall (fun o => worker o = None) (spawnedProcessObjects this) ->
      Forall (fun o => worker o = None)
             (spawnedProcessObjects (fst (react_all es this)))).
    { induction es as [|e es IH]; intros this H; [exact H|].
      cbn [react_all].
      pose proof (react_keeps_no_worker e this H) as Hstep.
      destruct (react e this) as [[r this1] out1].
      unfold after in Hstep. cbn [fst snd] in Hstep.
      specialize (IH this1 Hstep).
      destruct (react_all es this1) as [this2 out2]. exact IH. }
    apply Hgen. constructor. }
  split; [exact Hnone|].
  set (this := fst (lifetime cmd es)) in *.
  destruct (isRunning this) eqn:Hrun.
  - rewrite (kill_running this Hrun). unfold calls. cbn [snd].
    replace (live_workers (spawnedProcessObjects this)) with (@nil Worker);
      [reflexivity|].
    induction Hnone as [|o l Ho _ IH]; [reflexivity|].
    unfold live_workers. cbn [flat_map]. rewrite Ho. exact IH.
  - now rewrite (kill_idle this Hrun).
Qed.

(** ** When the completion callback is called *)

Lemma react_callback_completion (e : event) (this : CommandRunner) :
  is_run_event e = false ->
  (isRunning (after (react e this)) = true ->
   isRunning this = true /\ completions (calls (react e this)) = 0)
  /\ (isRunning (after (react e this)) = false ->
      isRunning this = false \/ 1 <= completions (calls (react e this))).
Proof.
  destruct e as [|i data|i w|i error|]; cbn [is_run_event react];
    intros Hrun; try discriminate.
  - destruct (processDataCallback_flag_and_completions i data this)
      as [-> ->].
    split; [intros H; split; [exact H|reflexivity]|intros H; now left].
  - rewrite processEndCallback_eq. cbv zeta.
    destruct (before_last i this).
    + destruct (tryToSpawnProcess_frame (i + 1)
                  (with_spawned this (tl (spawnedProcessObjects this))))
        as (Hflag & _ & Hc).
      destruct (tryToSpawnProcess (i + 1) _) as [[r s0] out].
      unfold after, calls in *. cbn [fst snd with_spawned isRunning] in *.
      rewrite Hflag, completions_app, Hc.
      split; [intros H; split; [exact H|now destruct w]|intros H; now left].
    + unfold after, calls. cbn [fst snd isRunning].
      split; [discriminate|]. intros _. right.
      rewrite completions_app. cbn. lia.
  - rewrite processErrorCallback_eq.
    destruct (nth_error _ i).
    + unfold after at 1 3, calls at 1 2. cbn [fst snd].
      destruct (isRunning this) eqn:Hflag.
      * rewrite (kill_running this Hflag). unfold after, calls.
        cbn [fst snd isRunning].
        split; [discriminate|]. intros _. right.
        rewrite !completions_app. cbn. lia.
      * rewrite (kill_idle this Hflag). unfold after, calls. cbn [fst snd].
        rewrite Hflag. split; [discriminate|]. intros _. now left.
    + unfold after, calls. cbn [fst snd].
      split; [intros H; split; [exact H|reflexivity]|intros H; now left].
  - destruct (isRunning this) eqn:Hflag.
    + rewrite (kill_running this Hflag). unfold after, calls.
      cbn [fst snd isRunning].
      split; [discriminate|]. intros _. right.
      rewrite completions_app. cbn. lia.
    + rewrite (kill_idle this Hflag). unfold after, calls. cbn [fst snd].
      rewrite Hflag. split; [discriminate|]. intros _. now left.
Qed.

Lemma callbacks_completion (es : list event) :
  forall this out,
    forallb (fun e => negb (is_run_event e)) es = true ->
    (isRunning this = true -> completions out = 0) ->
    (isRunning this = false -> 1 <= completions out) ->
    (isRunning (fst (react_all es this)) = true ->
     completions (out ++ snd (react_all es this)) = 0)
    /\ (isRunning (fst (react_all es this)) = false ->
        1 <= completions (out ++ snd (react_all es this))).
Proof.
  induction es as [|e es IH]; intros this out Hes Hbusy Hidle.
  - cbn [react_all fst snd]. rewrite app_nil_r. split; assumption.
  - cbn [forallb] in Hes. apply andb_prop in Hes as [He Hes].
    apply negb_true_iff in He. cbn [react_all].
    destruct (react_callback_completion e this He) as [Hstep1 Hstep2].
    destruct (react e this) as [[r this1] out1].
    unfold after, calls in *. cbn [fst snd] in *.
    specialize (IH this1 (out ++ out1) Hes).
    destruct (react_all es this1) as [this2 out2]. cbn [fst snd] in *.
    rewrite app_assoc. apply IH.
    + intros H. destruct (Hstep1 H) as [H1 H2].
      rewrite completions_app, H2, (Hbusy H1). reflexivity.
    + intros H. rewrite completions_app.
      destruct (Hstep2 H) as [H1|H1]; [specialize (Hidle H1)|]; lia.
Qed.

(** X14. In a run whose command line the parser accepted, the completion
    callback is never called while the runner is still running, and it has
    been called at least once as soon as the runner is not running any
    more, whatever the callbacks and kills that occurred. *)
Theorem completion_is_signalled_when_and_only_when_the_run_stopped
  (cmd : string) (commandAst : list ast) (es : list event) :
  parse cmd = normal commandAst ->
  forallb (fun e => negb (is_run_event e)) es = true ->
  (isRunning (fst (session cmd es)) = true ->
   completions (snd (session cmd es)) = 0)
  /\ (isRunning (fst (session cmd es)) = false ->
      1 <= completions (snd (session cmd es))).
Proof.
  intros Hparse Hes. unfold session, lifetime. cbn [react_all react].
  assert (Hfirst :
    (isRunning (after (runCommand (constructor cmd))) = true ->
     completions (calls (runCommand (constructor cmd))) = 0)
    /\ (isRunning (after (runCommand (constructor cmd))) = false ->
        1 <= completions (calls (runCommand (constructor cmd))))).
  { rewrite runCommand_eq. cbn [constructor commandString].
    rewrite Hparse.
    destruct (try_block commandAst) as [options|c].
    - match goal with
      | |- context [tryToSpawnProcess 0 ?s] =>
          destruct (tryToSpawnProcess_frame 0 s) as (Hflag & _ & Hc)
      end.
      rewrite Hflag, Hc. cbn [isRunning].
      split; [reflexivity|discriminate].
    - unfold after, calls. cbn. split; [discriminate|lia]. }
  destruct (runCommand (constructor cmd)) as [[r this0] out0].
  unfold after, calls in Hfirst. cbn [fst snd] in Hfirst.
  destruct Hfirst as [Hbusy Hidle].
  pose proof (callbacks_completion es this0 out0 Hes Hbusy Hidle) as H.
  destruct (react_all es this0) as [this1 out1]. exact H.
Qed.

(** ** A command started again *)

(** X15. [runCommand] does not look at the running flag.  Called a second
    time while the first stage is still live, it starts the first stage
    again: two processes are then live, and a chunk of the first stage of a
    chain of two or more is handed at once to the second of them instead of
    being kept as pending data. *)
Theorem runCommand_again_starts_a_second_first_stage
  (cmd : string) (a : ast) (options : list CommandOptions)
  (data : list byte) :
  parse cmd = normal [a] ->
  ast_type a = "command" ->
  getCommandOptionsFromAST a = normal options ->
  let stage0 := mkProcess (nth_error options 0) 0 None in
  let twice := mkCommandRunner options
                 [mkSpawned stage0 None; mkSpawned stage0 None] [] true cmd in
  lifetime cmd [run_event; run_event]
    = (twice, [process_start stage0; process_start stage0])
  /\ (2 <= List.length options ->
      processDataCallback 0 data twice =
      (normal tt, twice, [process_receiveStdinChunk stage0 data])).
Proof.
  intros Hparse Htype Hbuild stage0 twice.
  destruct (build_nonempty a options Hbuild) as (first & others & Hoptions).
  split.
  - unfold lifetime. cbn [react_all react].
    rewrite (runCommand_new_started cmd a options Hparse Htype Hbuild).
    rewrite (runCommand_started cmd a options Hparse Htype Hbuild
               (mkCommandRunner options
                  [mkSpawned (mkProcess (nth_error options 0) 0 None) None]
                  [] true cmd) eq_refl).
    rewrite tryToSpawnProcess_eq.
    cbn [spawnedProcessObjects commandOptionsForProcessesToRun
         initialStdinDataForNextProcess List.length].
    subst options. cbn [List.length Nat.ltb Nat.leb andb].
    rewrite spawnProcess_eq. reflexivity.
  - intros Htwo. rewrite processDataCallback_eq.
    replace (before_last 0 twice) with true
      by (symmetry; apply before_last_true; cbn; lia).
    reflexivity.
Qed.

(** ** The text written to the terminal *)

Lemma replace_LF_CRLF_follows (s : string) :
  forall after_CR, LF_follows_CR after_CR (replace_LF_CRLF s) = true.
Proof.
  induction s as [|c s IH]; intros after_CR; [reflexivity|].
  cbn [replace_LF_CRLF]. destruct (Ascii.eqb c LF) eqn:Hc.
  - cbn [LF_follows_CR].
    replace (Ascii.eqb CR LF) with false by reflexivity.
    replace (Ascii.eqb CR CR) with true by reflexivity.
    replace (Ascii.eqb LF LF) with true by reflexivity.
    cbn [andb]. apply IH.
  - cbn [LF_follows_CR]. rewrite Hc. cbn [andb]. apply IH.
Qed.

(** X16. In every text that the data callback writes to the terminal, each
    line feed comes right after a carriage return, whatever bytes the stage
    gave. *)
Theorem every_written_line_feed_follows_a_carriage_return
  (i : nat) (data : list byte) (this : CommandRunner) :
  Forall (fun text => LF_follows_CR false text = true)
         (written (calls (processDataCallback i data this))).
Proof.
  rewrite processDataCallback_eq.
  destruct (before_last i this).
  - destruct (1 <? _)%nat; [|constructor].
    destruct (nth_error _ 1); constructor.
  - unfold calls, written. cbn. constructor; [|constructor].
    apply replace_LF_CRLF_follows.
Qed.

Lemma replace_LF_CRLF_app (s s' : string) :
  replace_LF_CRLF (s ++ s') = (replace_LF_CRLF s ++ replace_LF_CRLF s')%string.
Proof.
  induction s as [|c s IH]; [reflexivity|].
  cbn [String.append replace_LF_CRLF]. rewrite IH.
  now destruct (Ascii.eqb c LF).
Qed.

Lemma string_of_list_byte_app (l l' : list byte) :
  string_of_list_byte (l ++ l')
  = (string_of_list_byte l ++ string_of_list_byte l')%string.
Proof.
  induction l as [|b l IH]; [reflexivity|].
  cbn. f_equal. exact IH.
Qed.

(** X17. For output in ASCII the chunking does not show: the last stage
    giving two chunks one after the other has them written as they are but
    for the line feeds, and the two texts put together are the text written
    when the same bytes come as one chunk. *)
Theorem ascii_output_is_written_alike_however_it_is_chunked
  (i : nat) (chunk chunk' : list byte) (this : CommandRunner) :
  S i = List.length (commandOptionsForProcessesToRun this) ->
  Forall (fun b => (Byte.to_N b < 128)%N) chunk ->
  Forall (fun b => (Byte.to_N b < 128)%N) chunk' ->
  let text := replace_LF_CRLF (string_of_list_byte chunk) in
  let text' := replace_LF_CRLF (string_of_list_byte chunk') in
  written (snd (react_all [data_event i chunk; data_event i chunk'] this))
    = [text; text']
  /\ written (calls (processDataCallback i (chunk ++ chunk') this))
    = [(text ++ text')%string].
Proof.
  intros Hlast Hascii Hascii' text text'.
  assert (Hnot : before_last i this = false)
    by (apply before_last_false; lia).
  split.
  - cbn [react_all react]. rewrite processDataCallback_eq, Hnot.
    cbv beta iota. rewrite processDataCallback_eq, Hnot.
    cbn [snd app]. unfold written. cbn [flat_map app].
    now rewrite (decode_ascii chunk Hascii), (decode_ascii chunk' Hascii').
  - rewrite processDataCallback_eq, Hnot. unfold calls, written.
    cbn [snd flat_map app].
    rewrite decode_ascii by (apply Forall_app; split; assumption).
    now rewrite string_of_list_byte_app, replace_LF_CRLF_app.
Qed.

End RunnerBehaviour.

(** * The further properties on the sample host *)

(** A parser that throws on the command line. *)
Lemma parser_failure_witness :
  let h := Sample.host (throw (Foreign "SyntaxError")) in
  @session h "a |" (repeat kill_event 2) = (constructor "a |", []).
Proof.
  intros h.
  destruct (@parser_failure_is_rethrown_without_completion h "a |"
              (Foreign "SyntaxError") 2 eq_refl) as [_ H].
  exact H.
Defined.

(** The empty command line. *)
Lemma empty_parse_result_witness :
  let h := Sample.host (normal []) in
  completions (calls (@runCommand h (constructor ""))) = 1.
Proof.
  intros h.
  destruct (@empty_parse_result_is_reported_as_parse_error h "" eq_refl)
    as (message & H).
  rewrite H. reflexivity.
Defined.

(** [cowsay hi]. *)
Lemma successful_runCommand_witness :
  let h := Sample.host (normal [pipeline_ast Sample.cowsay_hi []]) in
  spawns (calls (@runCommand h (constructor "cowsay hi"))) = 1.
Proof.
  intros h.
  destruct (@successful_runCommand_starts_the_first_stage_only h "cowsay hi"
              (pipeline_ast Sample.cowsay_hi []) _ eq_refl eq_refl eq_refl)
    as (first & others & _ & H & _).
  rewrite H. reflexivity.
Defined.

(** [a | lolcat]: the first stage gives [hi] and [yo], the second a line. *)
Lemma pipeline_runs_witness :
  let h := Sample.host
             (normal [pipeline_ast Sample.stage_a [Sample.stage_lolcat]]) in
  let chunks_of_stages :=
    [[Sample.utf8 "hi"; Sample.utf8 "yo"]; [[x68; x0a]]] in
  completions
    (snd (@session h "a | lolcat" (pipeline_events 0 chunks_of_stages))) = 1.
Proof.
  intros h chunks_of_stages.
  destruct (@pipeline_runs_every_stage_in_order_and_completes_once h
              "a | lolcat"
              (pipeline_ast Sample.stage_a [Sample.stage_lolcat]) _
              chunks_of_stages eq_refl eq_refl eq_refl eq_refl)
    as (Hrun & _ & _ & Hone & _).
  rewrite Hrun. exact Hone.
Defined.

(** [a] is started and killed; its process then writes and ends. *)
Lemma callbacks_after_kill_witness :
  let h := Sample.host (normal [pipeline_ast Sample.stage_a []]) in
  let killed := after (@kill h (fst (@session h "a" []))) in
  @processEndCallback h 0 None killed
  = (normal tt, killed, [commandEndCallback]).
Proof.
  intros h killed.
  destruct (@callbacks_after_kill_still_write_and_complete h
              (fst (@session h "a" [])) 0 (Sample.utf8 "late") eq_refl)
    as [_ H].
  exact H.
Defined.

(** [cowsay hi] is started and reports an error. *)
Lemma processErrorCallback_diagnostic_witness :
  let h := Sample.host (normal [pipeline_ast Sample.cowsay_hi []]) in
  written
    (calls (@processErrorCallback h 0 "boom"
              (fst (@session h "cowsay hi" []))))
  = [program_error_text "cowsay" "boom"].
Proof.
  intros h.
  destruct (@processErrorCallback_writes_one_diagnostic_and_unwinds h
              0 "boom"
              (mkCommandOptions (host := h) ["cowsay"; "hi"] []
                 "https://registry-cdn.wapm.dev/contents/_/cowsay/0.1.2/cowsay.wasm")
              "cowsay" (fst (@session h "cowsay hi" [])) eq_refl eq_refl)
    as (_ & H & _).
  exact H.
Defined.

(** An error of a second stage that [cowsay hi] does not have. *)
Lemma processErrorCallback_outside_witness :
  let h := Sample.host (normal [pipeline_ast Sample.cowsay_hi []]) in
  exists c,
    @processErrorCallback h 1 "boom" (fst (@session h "cowsay hi" []))
    = (throw c, fst (@session h "cowsay hi" []), []).
Proof.
  intros h.
  apply (@processErrorCallback_outside_the_options_throws h 1 "boom"
           (fst (@session h "cowsay hi" []))).
  vm_compute. lia.
Defined.

(** [a | lolcat], killed while the first stage runs. *)
Lemma completion_is_signalled_witness :
  let h := Sample.host
             (normal [pipeline_ast Sample.stage_a [Sample.stage_lolcat]]) in
  1 <= completions
         (snd (@session h "a | lolcat"
                 [data_event 0 (Sample.utf8 "hi"); kill_event])).
Proof.
  intros h.
  destruct (@completion_is_signalled_when_and_only_when_the_run_stopped h
              "a | lolcat"
              [pipeline_ast Sample.stage_a [Sample.stage_lolcat]]
              [data_event 0 (Sample.utf8 "hi"); kill_event]
              eq_refl eq_refl) as [_ H].
  apply H. reflexivity.
Defined.

(** [a | lolcat] started twice. *)
Lemma runCommand_again_witness :
  let h := Sample.host
             (normal [pipeline_ast Sample.stage_a [Sample.stage_lolcat]]) in
  live (fst (@lifetime h "a | lolcat" [run_event; run_event])) = 2.
Proof.
  intros h.
  destruct (@runCommand_again_starts_a_second_first_stage h "a | lolcat"
              (pipeline_ast Sample.stage_a [Sample.stage_lolcat]) _
              (Sample.utf8 "hi") eq_refl eq_refl eq_refl) as [H _].
  rewrite H. reflexivity.
Defined.

(** [cowsay hi] gives a line in two chunks. *)
Lemma ascii_output_witness :
  let h := Sample.host (normal [pipeline_ast Sample.cowsay_hi []]) in
  written
    (calls (@processDataCallback h 0 (Sample.utf8 "moo" ++ [x0a])
              (fst (@session h "cowsay hi" []))))
  = [("moo" ++ CRLF)%string].
Proof.
  intros h.
  destruct (@ascii_output_is_written_alike_however_it_is_chunked h 0
              (Sample.utf8 "moo") [x0a] (fst (@session h "cowsay hi" [])))
    as [_ H].
  - reflexivity.
  - repeat constructor.
  - repeat constructor.
  - rewrite H. reflexivity.
Defined.
